(** * The rank-23 scheme for 3x3 matrix multiplication ([verify.py])

    [fast_3x3_rank23] multiplies two 3x3 matrices with 23 scalar products.
    The development embeds the function over an arbitrary scalar type that
    offers Python's [+], binary [-], unary [-] and [*], together with the
    part of NumPy it touches ([ravel], [np.array], [reshape]) over a store
    of buffers, and proves the properties the specification states. *)

From Stdlib Require Import ZArith List Ring InitialRing Lia.
From Stdlib Require Ncring Ncring_tac.
From stdpp Require Import gmap list strings.

(** ** Scalars

    The function is duck-typed: whatever the array holds only has to answer
    [__add__], [__sub__], [__neg__] and [__mul__].  Line 83 hands the nine
    results to [np.array] without a dtype, and NumPy then picks one from the
    values it is given: [s_array xs] is the list of values the new array
    holds for the list [xs] of such scalars. *)

Class Scalar (T : Type) := {
  s_add : T -> T -> T;
  s_sub : T -> T -> T;
  s_neg : T -> T;
  s_mul : T -> T -> T;
  s_array : list T -> list T
}.

Declare Scope scalar_scope.
Delimit Scope scalar_scope with S.
Infix "+" := s_add : scalar_scope.
Infix "-" := s_sub : scalar_scope.
Infix "*" := s_mul : scalar_scope.
Notation "- x" := (s_neg x) : scalar_scope.

(** *** Python ints

    An array of dtype [object] holding Python ints computes with exact
    integers.  [np.array] of a list of Python ints looks at each value: it
    is an int64 when it fits, a uint64 when it lies in [2^63, 2^64), an
    object otherwise.  One object makes the array an object array; values
    all int64 or all uint64 keep that dtype; int64 and uint64 together
    promote to float64, and every value is then rounded to the nearest
    double, ties to even.  The doubles so obtained are integers, and
    [py_int_array] gives them as integers. *)

Definition in_int64 (z : Z) : bool :=
  ((- 2 ^ 63 <=? z) && (z <? 2 ^ 63))%Z.

Definition in_uint64_above_int64 (z : Z) : bool :=
  ((2 ^ 63 <=? z) && (z <? 2 ^ 64))%Z.

(** The double nearest to an integer: exact up to 53 significant bits,
    beyond that the low bits are rounded away. *)
Definition to_float64 (z : Z) : Z :=
  let m := Z.abs z in
  let e := (Z.log2 m - 52)%Z in
  if (e <=? 0)%Z then z
  else
    let u := (2 ^ e)%Z in
    let q := (m / u)%Z in
    let r := (m mod u)%Z in
    let q' := if ((2 * r >? u) || ((2 * r =? u) && Z.odd q))%Z
              then (q + 1)%Z else q in
    (Z.sgn z * (q' * u))%Z.

Definition py_int_array (xs : list Z) : list Z :=
  if negb (forallb (fun z => in_int64 z || in_uint64_above_int64 z) xs)
  then xs
  else if forallb in_int64 xs then xs
  else if forallb in_uint64_above_int64 xs then xs
  else map to_float64 xs.

#[export] Instance Z_scalar : Scalar Z :=
  {| s_add := Z.add; s_sub := Z.sub; s_neg := Z.opp; s_mul := Z.mul;
     s_array := py_int_array |}.

(** ** The arithmetic of the function body (lines 21-81)

    [kernel] is the straight-line part of [fast_3x3_rank23], after the two
    unpackings: pre-additions, the 23 products, the v-aggregates and the nine
    outputs, in the order of the source.  It returns the list handed to
    [np.array]. *)

Section Kernel.
Context {T : Type} {ops : Scalar T}.
Local Open Scope scalar_scope.

Definition kernel (A0 A1 A2 A3 A4 A5 A6 A7 A8
                   B0 B1 B2 B3 B4 B5 B6 B7 B8 : T) : list T :=
  (* pre-additions *)
  let t0 := A0 - A3 in
  let t1 := A4 + A5 in
  let t2 := A6 + A8 in
  let t3 := A1 + A2 in
  let t4 := A7 - t1 in
  let t5 := t0 + t2 in

  let u0 := B0 - B2 in
  let u1 := B4 - B7 in
  let u2 := B1 + u0 in
  let u3 := B5 - B8 in
  let u4 := B6 + u3 in
  let u5 := u1 + u2 in

  (* 23 scalar products *)
  let M0  := (-t3) * (-B7) in
  let M1  := (-A3 + A4 - A7) * (-u1) in
  let M2  := (A1 - A3) * u5 in
  let M3  := (-t0) * (-u0) in
  let M4  := (-A5) * u3 in
  let M5  := (A8 + t4) * B7 in
  let M6  := (-A8) * (-B2 + B7 + B8) in
  let M7  :=  t4 * (B5 + B7) in
  let M8  := (-A7) * (-B3) in
  let M9  := (A1 + A5) * (-u4) in
  let M10 := (-t5) * (B2 - B6) in
  let M11 := (-A6) *  B1 in
  let M12 := (A2 - A5 + t5) * (-B6) in
  let M13 := (-A0 + A1) *  u2 in
  let M14 := (-A3) *  B2 in
  let M15 := (A6 + t0) * (B0 - B6) in
  let M16 :=  A7 * (B4 + B5) in
  let M17 :=  t3 * (-B6 + B8) in
  let M18 := (-t2) *  B2 in
  let M19 := (-A1) * (-B3 + u4 - u5) in
  let M20 := (-A1 + A4) *  B3 in
  let M21 := (-t1) * (-B5) in
  let M22 :=  A3 * (B1 + u1) in

  (* v-aggregates *)
  let v0 := M4  - M14 in
  let v1 := M2  + M22 in
  let v2 := M7  + M21 in
  let v3 := M9  - v0 in
  let v4 := M10 - M18 in
  let v5 := M3  - v1 in
  let v6 := M5  - v2 in
  let v7 := M12 + v3 in
  let v8 := v4  + v7 in

  (* outputs *)
  let C0 :=  M19 + v5 - v8 in
  let C1 :=  M0  - M13 - v5 in
  let C2 :=  M17 - v8 in
  let C3 :=  M19 + M20 - v1 - v3 in
  let C4 := -M1  + M16 + M22 - v2 in
  let C5 :=  M21 + v0 in
  let C6 := -M3  + M8  + M15 + v4 in
  let C7 := -M11 + M16 + v6 in
  let C8 := -M6  - M18 - v6 in

  [C0; C1; C2;
   C3; C4; C5;
   C6; C7; C8].
End Kernel.

(** ** The reference product

    [matmul n zero X Y] is the row-by-column product of two [n] x [n]
    matrices stored row-major in lists: entry [(i, j)] is the sum over [k] of
    [X[i*n+k] * Y[k*n+j]], which is what [A @ B] computes in the test
    driver. *)

Section Reference.
Context {T : Type} {ops : Scalar T}.
Local Open Scope scalar_scope.

Definition entry (n : nat) (zero : T) (X : list T) (i j : nat) : T :=
  nth (i * n + j)%nat X zero.

Definition dot (n : nat) (zero : T) (X Y : list T) (i j : nat) : T :=
  fold_left (fun acc k => acc + entry n zero X i k * entry n zero Y k j)
            (seq 0 n) zero.

Definition matmul (n : nat) (zero : T) (X Y : list T) : list T :=
  flat_map (fun i => map (fun j => dot n zero X Y i j) (seq 0 n)) (seq 0 n).
End Reference.

(** A ring, given by its operations and by what [np.array] makes of a
    list of its elements, as a scalar type. *)
Definition ring_scalar {R : Type} (radd rsub : R -> R -> R) (ropp : R -> R)
    (rmul : R -> R -> R) (conv : list R -> list R) : Scalar R :=
  {| s_add := radd; s_sub := rsub; s_neg := ropp; s_mul := rmul;
     s_array := conv |}.

(** ** NumPy arrays over a store of buffers

    An [ndarray] is a view: it names a buffer of the store, carries a shape,
    and lists, for each position of its row-major (C order) traversal, the
    offset in the buffer where that element lives.  A freshly built array has
    [layout = seq 0 n]; a transposed or sliced view has another layout over
    the same buffer.  Two arrays share storage when they name one buffer. *)

Abbreviation loc := nat.

Record ndarray := { base : loc; shape : list nat; layout : list nat }.

(** Python's [ValueError] from a tuple assignment whose right-hand side
    yields the wrong number of values. *)
Inductive unpack_msg :=
| not_enough_values (expected got : nat)
| too_many_values (expected : nat).

Inductive exn := ValueError (msg : unpack_msg).

Inductive outcome := Returns (a : ndarray) | Raises (e : exn).

Section Numpy.
Context {T : Type} {ops : Scalar T}.

(** [A.size]: the product of the dimensions. *)
Definition size (a : ndarray) : nat := fold_right Nat.mul 1 (shape a).

(** [A.ravel()] followed by iteration: the elements in row-major order.
    [None] only when the array names no buffer of the store or an offset
    outside it, which no Python value does. *)
Definition ravel (h : gmap loc (list T)) (a : ndarray) : option (list T) :=
  buf ← h !! base a;
  mapM (fun o => buf !! o) (layout a).

(** An array of the store: its traversal exists and has [size] elements. *)
Definition valid (h : gmap loc (list T)) (a : ndarray) : Prop :=
  exists xs, ravel h a = Some xs /\ length xs = size a.

(** The error of [x0, ..., x8 = xs] when [xs] has not [expected] values. *)
Definition unpack_error (expected : nat) (xs : list T) : exn :=
  if length xs <? expected
  then ValueError (not_enough_values expected (length xs))
  else ValueError (too_many_values expected).

(** [np.array(xs).reshape(3, 3)]: a new buffer holding the values
    [np.array] makes of [xs], viewed with shape (3, 3). *)
Definition np_array_3x3 (h : gmap loc (list T)) (xs : list T)
  : ndarray * gmap loc (list T) :=
  let l := fresh (dom h) in
  let ys := s_array xs in
  ({| base := l; shape := [3; 3]; layout := seq 0 (length ys) |},
   <[l := ys]> h).

(** The function.  Line 18 unpacks [A.ravel()], line 19 [B.ravel()], in
    this order; a failed unpacking raises and leaves the store as it was. *)
Definition fast_3x3_rank23 (h : gmap loc (list T)) (A B : ndarray)
  : option (outcome * gmap loc (list T)) :=
  a ← ravel h A;
  match a with
  | [A0; A1; A2; A3; A4; A5; A6; A7; A8] =>
    b ← ravel h B;
    match b with
    | [B0; B1; B2; B3; B4; B5; B6; B7; B8] =>
      let '(C, h') :=
        np_array_3x3 h
          (kernel A0 A1 A2 A3 A4 A5 A6 A7 A8 B0 B1 B2 B3 B4 B5 B6 B7 B8) in
      Some (Returns C, h')
    | _ => Some (Raises (unpack_error 9 b), h)
    end
  | _ => Some (Raises (unpack_error 9 a), h)
  end.
End Numpy.

(** ** The body as straight-line code

    Operation counts, the shape of the operands and the reads of each
    assignment are properties of the program text, so the body is also given
    as data: one assignment per source line 22-81, in source order, with the
    source's names.  [exec] runs it over any [Scalar] and tallies the
    operations it performs; [exec_body_kernel] below shows that it computes
    what [kernel] computes. *)

Module Slp.

Inductive var :=
| A (i : nat) | B (i : nat)
| t (i : nat) | u (i : nat)
| M (i : nat)
| v (i : nat)
| C (i : nat).

Inductive expr :=
| Var (x : var)
| Neg (e : expr)
| Add (e1 e2 : expr)
| Sub (e1 e2 : expr)
| Mul (e1 e2 : expr).

Coercion Var : var >-> expr.

Declare Scope expr_scope.
Delimit Scope expr_scope with expr.
Bind Scope expr_scope with expr.
Infix "+" := Add : expr_scope.
Infix "-" := Sub : expr_scope.
Infix "*" := Mul : expr_scope.
Notation "- x" := (Neg x) : expr_scope.

Definition stmt : Type := var * expr.
Definition assign (x : var) (e : expr) : stmt := (x, e).
Notation "x ::= e" := (assign x e%expr) (at level 90).

Definition pre_additions : list stmt :=
  [ t 0 ::= A 0 - A 3;
    t 1 ::= A 4 + A 5;
    t 2 ::= A 6 + A 8;
    t 3 ::= A 1 + A 2;
    t 4 ::= A 7 - t 1;
    t 5 ::= t 0 + t 2;

    u 0 ::= B 0 - B 2;
    u 1 ::= B 4 - B 7;
    u 2 ::= B 1 + u 0;
    u 3 ::= B 5 - B 8;
    u 4 ::= B 6 + u 3;
    u 5 ::= u 1 + u 2 ].

Definition products : list stmt :=
  [ M 0  ::= (- t 3) * (- B 7);
    M 1  ::= (- A 3 + A 4 - A 7) * (- u 1);
    M 2  ::= (A 1 - A 3) * u 5;
    M 3  ::= (- t 0) * (- u 0);
    M 4  ::= (- A 5) * u 3;
    M 5  ::= (A 8 + t 4) * B 7;
    M 6  ::= (- A 8) * (- B 2 + B 7 + B 8);
    M 7  ::=  t 4 * (B 5 + B 7);
    M 8  ::= (- A 7) * (- B 3);
    M 9  ::= (A 1 + A 5) * (- u 4);
    M 10 ::= (- t 5) * (B 2 - B 6);
    M 11 ::= (- A 6) *  B 1;
    M 12 ::= (A 2 - A 5 + t 5) * (- B 6);
    M 13 ::= (- A 0 + A 1) *  u 2;
    M 14 ::= (- A 3) *  B 2;
    M 15 ::= (A 6 + t 0) * (B 0 - B 6);
    M 16 ::=  A 7 * (B 4 + B 5);
    M 17 ::=  t 3 * (- B 6 + B 8);
    M 18 ::= (- t 2) *  B 2;
    M 19 ::= (- A 1) * (- B 3 + u 4 - u 5);
    M 20 ::= (- A 1 + A 4) *  B 3;
    M 21 ::= (- t 1) * (- B 5);
    M 22 ::=  A 3 * (B 1 + u 1) ].

Definition v_aggregates : list stmt :=
  [ v 0 ::= M 4  - M 14;
    v 1 ::= M 2  + M 22;
    v 2 ::= M 7  + M 21;
    v 3 ::= M 9  - v 0;
    v 4 ::= M 10 - M 18;
    v 5 ::= M 3  - v 1;
    v 6 ::= M 5  - v 2;
    v 7 ::= M 12 + v 3;
    v 8 ::= v 4  + v 7 ].

Definition outputs : list stmt :=
  [ C 0 ::=  M 19 + v 5 - v 8;
    C 1 ::=  M 0  - M 13 - v 5;
    C 2 ::=  M 17 - v 8;
    C 3 ::=  M 19 + M 20 - v 1 - v 3;
    C 4 ::= - M 1  + M 16 + M 22 - v 2;
    C 5 ::=  M 21 + v 0;
    C 6 ::= - M 3  + M 8  + M 15 + v 4;
    C 7 ::= - M 11 + M 16 + v 6;
    C 8 ::= - M 6  - M 18 - v 6 ].

Definition body : list stmt :=
  pre_additions ++ products ++ v_aggregates ++ outputs.

Definition var_eqb (x y : var) : bool :=
  match x, y with
  | A i, A j | B i, B j | t i, t j | u i, u j
  | M i, M j | v i, v j | C i, C j => Nat.eqb i j
  | _, _ => false
  end.

(** What an instrumented build counts: one tick per [*], per binary [+]
    or [-], and per unary [-] carried out. *)
Record tally := { muls : nat; addsubs : nat; negs : nat }.

Definition no_ops : tally := {| muls := 0; addsubs := 0; negs := 0 |}.

Definition tally_plus (m n : tally) : tally :=
  {| muls := muls m + muls n;
     addsubs := addsubs m + addsubs n;
     negs := negs m + negs n |}.

Definition tick_mul (n : tally) : tally :=
  {| muls := S (muls n); addsubs := addsubs n; negs := negs n |}.
Definition tick_addsub (n : tally) : tally :=
  {| muls := muls n; addsubs := S (addsubs n); negs := negs n |}.
Definition tick_neg (n : tally) : tally :=
  {| muls := muls n; addsubs := addsubs n; negs := S (negs n) |}.

(** What one run of the whole body tallies (see [exec_body_kernel]). *)
Definition body_tally : tally :=
  {| muls := 23; addsubs := 60; negs := 28 |}.

Section Semantics.
Context {T : Type} {ops : Scalar T}.
Local Open Scope scalar_scope.

(** The local variables of a call, most recent binding first. *)
Definition env : Type := list (var * T).

Fixpoint get (ρ : env) (x : var) : option T :=
  match ρ with
  | [] => None
  | (y, a) :: ρ' => if var_eqb x y then Some a else get ρ' x
  end.

(** Evaluation of a right-hand side, left operand first, returning the
    value and the operations carried out.  [None] is Python's
    [NameError]: a read of a name not yet assigned. *)
Fixpoint eval (ρ : env) (e : expr) : option (T * tally) :=
  match e with
  | Var x => a ← get ρ x; Some (a, no_ops)
  | Neg e1 => '(a, n) ← eval ρ e1; Some (- a, tick_neg n)
  | Add e1 e2 =>
      '(a, n1) ← eval ρ e1; '(b, n2) ← eval ρ e2;
      Some (a + b, tick_addsub (tally_plus n1 n2))
  | Sub e1 e2 =>
      '(a, n1) ← eval ρ e1; '(b, n2) ← eval ρ e2;
      Some (a - b, tick_addsub (tally_plus n1 n2))
  | Mul e1 e2 =>
      '(a, n1) ← eval ρ e1; '(b, n2) ← eval ρ e2;
      Some (a * b, tick_mul (tally_plus n1 n2))
  end.

Definition step (σ : env * tally) (s : stmt) : option (env * tally) :=
  '(a, n) ← eval σ.1 s.2;
  Some ((s.1, a) :: σ.1, tally_plus σ.2 n).

Fixpoint exec (p : list stmt) (σ : env * tally) : option (env * tally) :=
  match p with
  | [] => Some σ
  | s :: p' => σ' ← step σ s; exec p' σ'
  end.

(** The bindings made by the two unpackings of lines 18 and 19. *)
Definition inputs (a b : list T) : env :=
  imap (fun i x => (A i, x)) a ++ imap (fun i x => (B i, x)) b.

(** The list [[C0, ..., C8]] of line 83. *)
Definition result (ρ : env) : option (list T) :=
  mapM (fun i => get ρ (C i)) (seq 0 9).
End Semantics.

(** *** Reading the program text *)

(** The names an expression reads, left to right. *)
Fixpoint reads (e : expr) : list var :=
  match e with
  | Var x => [x]
  | Neg e1 => reads e1
  | Add e1 e2 | Sub e1 e2 | Mul e1 e2 => reads e1 ++ reads e2
  end.

(** The right-hand side assigned to a name, and the names it reads. *)
Definition rhs (p : list stmt) (x : var) : option expr :=
  snd <$> find (fun s => var_eqb x s.1) p.

Definition reads_of (x : var) : list var :=
  from_option reads [] (rhs body x).

Definition is_M (x : var) : bool := if x is M _ then true else false.
Definition is_v (x : var) : bool := if x is v _ then true else false.

(** A raw entry [A0..A8], [B0..B8] or a preprocessed term [t0..t5],
    [u0..u5]; such a value, possibly negated. *)
Definition is_atom (e : expr) : bool :=
  match e with
  | Var (A _) | Var (B _) | Var (t _) | Var (u _) => true
  | _ => false
  end.

Definition is_signed_atom (e : expr) : bool :=
  is_atom e || (if e is Neg e1 then is_atom e1 else false).

(** The number of signed atoms an operand adds up: [Some 1] for a signed
    atom, the sum of both sides for [+] and [-], [None] for anything else. *)
Fixpoint summands (e : expr) : option nat :=
  if is_signed_atom e then Some 1
  else match e with
       | Add e1 e2 | Sub e1 e2 =>
           n1 ← summands e1; n2 ← summands e2; Some (n1 + n2)
       | _ => None
       end.

(** The two factors of a product line and how many summands each has. *)
Definition factors (s : stmt) : option (expr * expr) :=
  if s.2 is Mul e1 e2 then Some (e1, e2) else None.

Definition factor_summands (s : stmt) : option (nat * nat) :=
  '(e1, e2) ← factors s; n1 ← summands e1; n2 ← summands e2; Some (n1, n2).

(** *** Magnitudes

    When every entry is at most [b] in absolute value, a local is at most
    [c * b^d] for a coefficient [c] and a degree [d] (1 for sums of
    entries, 2 for sums of products) read off the program text.
    [magnitude] gives [(c, d, k)] for an expression, [k] being the largest
    coefficient among the results of the operations inside it; [None] when
    it adds values of different degrees or multiplies beyond degree 2. *)
Fixpoint magnitude (β : list (var * (Z * nat))) (e : expr)
  : option (Z * nat * Z) :=
  match e with
  | Var x => '(c, d) ← get β x; Some (c, d, 0%Z)
  | Neg e1 => '(c, d, k) ← magnitude β e1; Some (c, d, Z.max k c)
  | Add e1 e2 | Sub e1 e2 =>
      '(c1, d1, k1) ← magnitude β e1; '(c2, d2, k2) ← magnitude β e2;
      if decide (d1 = d2)
      then Some ((c1 + c2)%Z, d1, Z.max (Z.max k1 k2) (c1 + c2))
      else None
  | Mul e1 e2 =>
      '(c1, d1, k1) ← magnitude β e1; '(c2, d2, k2) ← magnitude β e2;
      if decide (d1 + d2 <= 2)
      then Some ((c1 * c2)%Z, d1 + d2, Z.max (Z.max k1 k2) (c1 * c2))
      else None
  end.

(** The same along a program: the bounds of the names assigned and the
    largest coefficient met. *)
Fixpoint magnitudes (p : list stmt) (β : list (var * (Z * nat))) (k : Z)
  : option (list (var * (Z * nat)) * Z) :=
  match p with
  | [] => Some (β, k)
  | s :: p' =>
      '(c, d, k') ← magnitude β s.2;
      magnitudes p' ((s.1, (c, d)) :: β) (Z.max k k')
  end.

(** A value [p.1] within its bound [p.2 = (c, d)], for entries at most [b]. *)
Definition within (b : Z) (p : Z * (Z * nat)) : Prop :=
  (0 <= p.2.1)%Z /\ 1 <= p.2.2 <= 2
  /\ (Z.abs p.1 <= p.2.1 * b ^ Z.of_nat p.2.2)%Z.

(** Entries are bounded by [1 * b^1]. *)
Definition entry_bounds : list (var * (Z * nat)) :=
  map (fun i => (A i, (1%Z, 1))) (seq 0 9)
  ++ map (fun i => (B i, (1%Z, 1))) (seq 0 9).

End Slp.

(** ** The instrumented build

    The same function with the body run by [Slp.exec], returning in addition
    the operations carried out during the call. *)

Section Counted.
Context {T : Type} {ops : Scalar T}.

Definition fast_3x3_rank23_counted (h : gmap loc (list T)) (A B : ndarray)
  : option (outcome * gmap loc (list T) * Slp.tally) :=
  a ← ravel h A;
  match a with
  | [_; _; _; _; _; _; _; _; _] =>
    b ← ravel h B;
    match b with
    | [_; _; _; _; _; _; _; _; _] =>
      '(ρ, n) ← Slp.exec Slp.body (Slp.inputs a b, Slp.no_ops);
      Cs ← Slp.result ρ;
      let '(C, h') := np_array_3x3 h Cs in
      Some (Returns C, h', n)
    | _ => Some (Raises (unpack_error 9 b), h, Slp.no_ops)
    end
  | _ => Some (Raises (unpack_error 9 a), h, Slp.no_ops)
  end.
End Counted.

(** ** What a caller can see of a call

    The shape and the elements of the returned array, or the exception. *)

Section Observe.
Context {T : Type}.

Definition observe (r : option (outcome * gmap loc (list T)))
  : option (list nat * list T + exn) :=
  '(o, h') ← r;
  match o with
  | Returns C => xs ← ravel h' C; Some (inl (shape C, xs))
  | Raises e => Some (inr e)
  end.

(** A store with two buffers, as the test driver builds before each
    call, and the view of a whole buffer under a given shape. *)
Definition store2 (a b : list T) : gmap loc (list T) :=
  <[0 := a]> (<[1 := b]> ∅).

Definition view (l : loc) (sh : list nat) : ndarray :=
  {| base := l; shape := sh; layout := seq 0 (fold_right Nat.mul 1 sh) |}.
End Observe.

(** [fast_3x3_rank23(A, B)] on two 3x3 arrays of integers given by their
    rows. *)
Definition call_3x3 (a b : list Z) : option (list nat * list Z + exn) :=
  observe (fast_3x3_rank23 (store2 a b) (view 0 [3; 3]) (view 1 [3; 3])).

(** ** Rings

    The laws of a ring with unit, multiplication not assumed commutative. *)

Record ring_laws {R : Type} (rO rI : R) (radd rmul rsub : R -> R -> R)
    (ropp : R -> R) : Prop := {
  rl_add_0_l : forall x, radd rO x = x;
  rl_add_comm : forall x y, radd x y = radd y x;
  rl_add_assoc : forall x y z, radd x (radd y z) = radd (radd x y) z;
  rl_mul_1_l : forall x, rmul rI x = x;
  rl_mul_1_r : forall x, rmul x rI = x;
  rl_mul_assoc : forall x y z, rmul x (rmul y z) = rmul (rmul x y) z;
  rl_distr_l : forall x y z, rmul (radd x y) z = radd (rmul x z) (rmul y z);
  rl_distr_r : forall x y z, rmul z (radd x y) = radd (rmul z x) (rmul z y);
  rl_sub_def : forall x y, rsub x y = radd x (ropp y);
  rl_opp_def : forall x, radd x (ropp x) = rO
}.

(** 2x2 integer matrices [(a, b, c, d)] for [[a, b], [c, d]]: a ring whose
    multiplication does not commute. *)
Module Mat2.
Local Open Scope Z_scope.

Definition t : Type := Z * Z * Z * Z.

Definition zero : t := (0, 0, 0, 0).
Definition one : t := (1, 0, 0, 1).
Definition add (x y : t) : t :=
  let '(a, b, c, d) := x in let '(a', b', c', d') := y in
  (a + a', b + b', c + c', d + d').
Definition opp (x : t) : t :=
  let '(a, b, c, d) := x in (- a, - b, - c, - d).
Definition sub (x y : t) : t :=
  let '(a, b, c, d) := x in let '(a', b', c', d') := y in
  (a - a', b - b', c - c', d - d').
Definition mul (x y : t) : t :=
  let '(a, b, c, d) := x in let '(a', b', c', d') := y in
  (a * a' + b * c', a * b' + b * d', c * a' + d * c', c * b' + d * d').

End Mat2.

(** ** NumPy's int64

    The driver draws its matrices with [rng.integers], whose arrays have
    dtype int64: the scalars the function then computes with are
    [np.int64], whose [+], [-] and [*] wrap around modulo 2^64 into
    [-2^63, 2^63); [np.array] of a list of [np.int64] is an int64 array
    of the same values. *)

Definition is_int64 (z : Z) : Prop := (- 2 ^ 63 <= z < 2 ^ 63)%Z.

Definition wrap64 (z : Z) : Z := ((z + 2 ^ 63) mod 2 ^ 64 - 2 ^ 63)%Z.

Definition int64_scalar : Scalar Z :=
  {| s_add := fun a b => wrap64 (a + b);
     s_sub := fun a b => wrap64 (a - b);
     s_neg := fun a => wrap64 (- a);
     s_mul := fun a b => wrap64 (a * b);
     s_array := fun xs => xs |}.

(** int64 arithmetic that gives up on overflow: [None] once a result has
    left the int64 range (NumPy reports such a scalar operation with a
    [RuntimeWarning] and carries on with the wrapped value). *)
Definition checked (z : Z) : option Z := if in_int64 z then Some z else None.

Definition checked_scalar : Scalar (option Z) :=
  {| s_add := fun x y => a ← x; b ← y; checked (a + b);
     s_sub := fun x y => a ← x; b ← y; checked (a - b);
     s_neg := fun x => a ← x; checked (- a);
     s_mul := fun x y => a ← x; b ← y; checked (a * b);
     s_array := fun xs => xs |}.

(** ** The test driver (lines 88-94)

    Each of the 1000 rounds draws two 3x3 int64 arrays, calls the function,
    computes [A @ B] and asserts [np.array_equal] of the two; after the last
    round the driver prints its message.  The generator is NumPy's; the
    driver is modelled over whatever it draws: [rng k] is the element list
    of the [k]-th array drawn. *)

Section Driver.
Context {T : Type} {ops : Scalar T} `{EqDecision T}.

(** A new array of the given shape holding [xs]. *)
Definition alloc (h : gmap loc (list T)) (sh : list nat) (xs : list T)
  : ndarray * gmap loc (list T) :=
  let l := fresh (dom h) in
  ({| base := l; shape := sh; layout := seq 0 (length xs) |}, <[l := xs]> h).

(** [A @ B] for two square 2-D arrays of one size, the case the driver
    uses; [None] stands for every other combination of shapes, which this
    model does not cover. *)
Definition np_matmul (zero : T) (h : gmap loc (list T)) (A B : ndarray)
  : option (ndarray * gmap loc (list T)) :=
  match shape A, shape B with
  | [n; k], [k'; m] =>
      if decide (n = k /\ k = k' /\ k' = m) then
        a ← ravel h A; b ← ravel h B;
        Some (alloc h [n; n] (matmul n zero a b))
      else None
  | _, _ => None
  end.

(** [np.array_equal(X, Y)]: same shape and same elements. *)
Definition np_array_equal (h : gmap loc (list T)) (X Y : ndarray)
  : option bool :=
  xs ← ravel h X; ys ← ravel h Y;
  Some (bool_decide (shape X = shape Y) && bool_decide (xs = ys)).

Inductive driver_outcome :=
| Printed (msg : string)
| AssertionError
| Uncaught (e : exn).

(** [n] rounds of the loop, the next draw being the [k]-th. *)
Fixpoint test_loop (zero : T) (rng : nat -> list T) (n k : nat)
    (h : gmap loc (list T)) : option driver_outcome :=
  match n with
  | 0 => Some (Printed "All 1,000 random tests passed")
  | S n' =>
      let '(A, h1) := alloc h [3; 3] (rng k) in
      let '(B, h2) := alloc h1 [3; 3] (rng (S k)) in
      r ← fast_3x3_rank23 h2 A B;
      match r with
      | (Raises e, _) => Some (Uncaught e)
      | (Returns C, h3) =>
          '(D, h4) ← np_matmul zero h3 A B;
          ok ← np_array_equal h4 C D;
          if (ok : bool) then test_loop zero rng n' (S (S k)) h4
          else Some AssertionError
      end
  end.
End Driver.

(** The [__main__] block, over int64. *)
Definition main (rng : nat -> list Z) : option driver_outcome :=
  test_loop (ops := int64_scalar) 0%Z rng 1000 0 ∅.

(** * Properties *)

(** ** Reading the store *)

(** Splits a list hypothesis by length: a list is one of the nine-element
    lists the unpacking accepts, or its length is not 9. *)
Ltac by_length xs :=
  do 10 (try destruct xs as [|? xs]); cbn [length] in *;
  try lia; try discriminate.

Section StoreFacts.
Context {T : Type}.
Implicit Types (h : gmap loc (list T)) (xs : list T).

Lemma mapM_lookup_seq xs :
  mapM (fun o => xs !! o) (seq 0 (length xs)) = Some xs.
Proof.
  apply mapM_Some, Forall2_same_length_lookup_2.
  - apply length_seq.
  - intros i o y Ho Hy. apply lookup_seq in Ho as [-> _]. exact Hy.
Qed.

Lemma ravel_base_in_dom h a xs : ravel h a = Some xs -> base a ∈ dom h.
Proof.
  unfold ravel. destruct (h !! base a) as [buf|] eqn:Hb; [|discriminate].
  intros _. apply elem_of_dom. eauto.
Qed.

Lemma fresh_not_base h a xs : ravel h a = Some xs -> base a <> fresh (dom h).
Proof.
  intros Hr Heq. apply ravel_base_in_dom in Hr. rewrite Heq in Hr.
  exact (is_fresh (dom h) Hr).
Qed.

(** Allocation leaves every existing view as it was. *)
Lemma ravel_alloc h a xs ys :
  ravel h a = Some xs -> ravel (<[fresh (dom h) := ys]> h) a = Some xs.
Proof.
  intros Hr. pose proof (fresh_not_base _ _ _ Hr) as Hne.
  unfold ravel in *. rewrite lookup_insert_ne by congruence. exact Hr.
Qed.

(** The new array reads back the list it was built from. *)
Lemma ravel_np_array h xs sh :
  ravel (<[fresh (dom h) := xs]> h)
        {| base := fresh (dom h); shape := sh; layout := seq 0 (length xs) |}
  = Some xs.
Proof.
  unfold ravel. simpl. rewrite lookup_insert_eq. simpl.
  apply mapM_lookup_seq.
Qed.

Lemma unpack_error_is_ValueError n xs : exists m, unpack_error n xs = ValueError m.
Proof. unfold unpack_error. destruct (length xs <? n); eauto. Qed.
End StoreFacts.

(** ** The three ways a call can go *)

Section Call.
Context {T : Type} {ops : Scalar T}.
Implicit Types (h : gmap loc (list T)) (a b : list T).

Lemma call_raises_left h (A B : ndarray) a :
  ravel h A = Some a -> length a <> 9 ->
  fast_3x3_rank23 h A B = Some (Raises (unpack_error 9 a), h).
Proof.
  intros Ha Hn. unfold fast_3x3_rank23. rewrite Ha. simpl.
  by_length a; reflexivity.
Qed.

Lemma call_raises_right h (A B : ndarray) a b :
  ravel h A = Some a -> ravel h B = Some b ->
  length a = 9 -> length b <> 9 ->
  fast_3x3_rank23 h A B = Some (Raises (unpack_error 9 b), h).
Proof.
  intros Ha Hb Hla Hlb. unfold fast_3x3_rank23. rewrite Ha. simpl.
  by_length a. rewrite Hb. simpl. by_length b; reflexivity.
Qed.

Lemma call_returns h (A B : ndarray)
      (A0 A1 A2 A3 A4 A5 A6 A7 A8 B0 B1 B2 B3 B4 B5 B6 B7 B8 : T) :
  ravel h A = Some [A0; A1; A2; A3; A4; A5; A6; A7; A8] ->
  ravel h B = Some [B0; B1; B2; B3; B4; B5; B6; B7; B8] ->
  let c := s_array (kernel A0 A1 A2 A3 A4 A5 A6 A7 A8
                           B0 B1 B2 B3 B4 B5 B6 B7 B8) in
  fast_3x3_rank23 h A B =
    Some (Returns {| base := fresh (dom h); shape := [3; 3];
                     layout := seq 0 (length c) |},
          <[fresh (dom h) := c]> h).
Proof.
  intros Ha Hb. unfold fast_3x3_rank23. rewrite Ha. simpl. rewrite Hb.
  reflexivity.
Qed.
End Call.

(** ** The straight-line body against [kernel] *)

Section BodyFacts.
Context {T : Type} {ops : Scalar T}.
Implicit Types (h : gmap loc (list T)) (a b : list T).

(** Run on nine and nine inputs, the body assigns every name, hands
    [kernel]'s list to [np.array], and carries out [body_tally]. *)
Lemma exec_body_kernel
      (A0 A1 A2 A3 A4 A5 A6 A7 A8 B0 B1 B2 B3 B4 B5 B6 B7 B8 : T) :
  exists ρ,
    Slp.exec Slp.body
      (Slp.inputs [A0; A1; A2; A3; A4; A5; A6; A7; A8]
                  [B0; B1; B2; B3; B4; B5; B6; B7; B8], Slp.no_ops)
    = Some (ρ, Slp.body_tally)
    /\ Slp.result ρ
       = Some (kernel A0 A1 A2 A3 A4 A5 A6 A7 A8
                      B0 B1 B2 B3 B4 B5 B6 B7 B8).
Proof. eexists. split; vm_compute; reflexivity. Qed.

Lemma counted_raises_left h (A B : ndarray) a :
  ravel h A = Some a -> length a <> 9 ->
  fast_3x3_rank23_counted h A B
  = Some (Raises (unpack_error 9 a), h, Slp.no_ops).
Proof.
  intros Ha Hn. unfold fast_3x3_rank23_counted. rewrite Ha.
  cbn [mbind option_bind]. by_length a; reflexivity.
Qed.

Lemma counted_raises_right h (A B : ndarray) a b :
  ravel h A = Some a -> ravel h B = Some b ->
  length a = 9 -> length b <> 9 ->
  fast_3x3_rank23_counted h A B
  = Some (Raises (unpack_error 9 b), h, Slp.no_ops).
Proof.
  intros Ha Hb Hla Hlb. unfold fast_3x3_rank23_counted. rewrite Ha.
  cbn [mbind option_bind]. by_length a. rewrite Hb.
  cbn [mbind option_bind]. by_length b; reflexivity.
Qed.

Lemma counted_returns h (A B : ndarray)
      (A0 A1 A2 A3 A4 A5 A6 A7 A8 B0 B1 B2 B3 B4 B5 B6 B7 B8 : T) :
  ravel h A = Some [A0; A1; A2; A3; A4; A5; A6; A7; A8] ->
  ravel h B = Some [B0; B1; B2; B3; B4; B5; B6; B7; B8] ->
  let c := s_array (kernel A0 A1 A2 A3 A4 A5 A6 A7 A8
                           B0 B1 B2 B3 B4 B5 B6 B7 B8) in
  fast_3x3_rank23_counted h A B =
    Some (Returns {| base := fresh (dom h); shape := [3; 3];
                     layout := seq 0 (length c) |},
          <[fresh (dom h) := c]> h,
          Slp.body_tally).
Proof.
  intros Ha Hb. unfold fast_3x3_rank23_counted. rewrite Ha.
  cbn [mbind option_bind]. rewrite Hb. cbn [mbind option_bind].
  destruct (exec_body_kernel A0 A1 A2 A3 A4 A5 A6 A7 A8
                             B0 B1 B2 B3 B4 B5 B6 B7 B8) as (ρ & He & Hr).
  rewrite He. cbn [mbind option_bind]. rewrite Hr. reflexivity.
Qed.

(** Forgetting the tally gives back the function itself. *)
Lemma counted_erase h (A B : ndarray) :
  fst <$> fast_3x3_rank23_counted h A B = fast_3x3_rank23 h A B.
Proof.
  destruct (ravel h A) as [a|] eqn:Ha.
  2:{ unfold fast_3x3_rank23_counted, fast_3x3_rank23. rewrite Ha.
      reflexivity. }
  destruct (decide (length a = 9)) as [Hla|Hla].
  2:{ rewrite (counted_raises_left _ _ _ _ Ha Hla),
              (call_raises_left _ _ _ _ Ha Hla). reflexivity. }
  destruct (ravel h B) as [b|] eqn:Hb.
  2:{ unfold fast_3x3_rank23_counted, fast_3x3_rank23. rewrite Ha.
      cbn [mbind option_bind]. by_length a. rewrite Hb. reflexivity. }
  destruct (decide (length b = 9)) as [Hlb|Hlb].
  2:{ rewrite (counted_raises_right _ _ _ _ _ Ha Hb Hla Hlb),
              (call_raises_right _ _ _ _ _ Ha Hb Hla Hlb). reflexivity. }
  by_length a. by_length b.
  rewrite (counted_returns _ _ _ _ _ _ _ _ _ _ _ _ _ _ _ _ _ _ _ _ _ Ha Hb),
          (call_returns _ _ _ _ _ _ _ _ _ _ _ _ _ _ _ _ _ _ _ _ _ Ha Hb).
  reflexivity.
Qed.
End BodyFacts.

(** ** The phases of the body *)

Section Phases.
Context {T : Type} {ops : Scalar T}.
Local Open Scope scalar_scope.

(** C2.  Run on the unpacked entries, the pre-addition lines bind exactly
    twelve new names, [t0..t5] and [u0..u5], to the combinations
    t0=A0-A3, t1=A4+A5, t2=A6+A8, t3=A1+A2, t4=A7-t1, t5=t0+t2 and
    u0=B0-B2, u1=B4-B7, u2=B1+u0, u3=B5-B8, u4=B6+u3, u5=u1+u2, at the cost
    of twelve additions or subtractions; these lines open the body, and the
    rest of the body, run from there, produces the list the function
    returns. *)
Theorem pre_additions_compute_the_twelve_terms
    (A0 A1 A2 A3 A4 A5 A6 A7 A8 B0 B1 B2 B3 B4 B5 B6 B7 B8 : T) :
  let σ := Slp.inputs [A0; A1; A2; A3; A4; A5; A6; A7; A8]
                      [B0; B1; B2; B3; B4; B5; B6; B7; B8] in
  let t0 := A0 - A3 in
  let t1 := A4 + A5 in
  let t2 := A6 + A8 in
  let t3 := A1 + A2 in
  let t4 := A7 - t1 in
  let t5 := t0 + t2 in
  let u0 := B0 - B2 in
  let u1 := B4 - B7 in
  let u2 := B1 + u0 in
  let u3 := B5 - B8 in
  let u4 := B6 + u3 in
  let u5 := u1 + u2 in
  let σ12 := ([(Slp.u 5, u5); (Slp.u 4, u4); (Slp.u 3, u3);
               (Slp.u 2, u2); (Slp.u 1, u1); (Slp.u 0, u0);
               (Slp.t 5, t5); (Slp.t 4, t4); (Slp.t 3, t3);
               (Slp.t 2, t2); (Slp.t 1, t1); (Slp.t 0, t0)] ++ σ,
              {| Slp.muls := 0; Slp.addsubs := 12; Slp.negs := 0 |}) in
  Slp.exec Slp.pre_additions (σ, Slp.no_ops) = Some σ12
  /\ firstn 12 Slp.body = Slp.pre_additions
  /\ exists ρ,
       Slp.exec (skipn 12 Slp.body) σ12 = Some (ρ, Slp.body_tally)
       /\ Slp.result ρ
          = Some (kernel A0 A1 A2 A3 A4 A5 A6 A7 A8
                         B0 B1 B2 B3 B4 B5 B6 B7 B8).
Proof.
  cbv zeta. split; [reflexivity|]. split; [reflexivity|].
  eexists. split; vm_compute; reflexivity.
Qed.
End Phases.

(** C3 as stated fails at [v4]: line 66 is [v4 = M10 - M18], which reads
    two products and no earlier aggregate. *)
Lemma v4_reads_no_aggregate :
  Slp.rhs Slp.body (Slp.v 4) = Some (Slp.Sub (Slp.Var (Slp.M 10)) (Slp.Var (Slp.M 18)))
  /\ Slp.reads_of (Slp.v 4) = [Slp.M 10; Slp.M 18]
  /\ ~ (exists j, In (Slp.v j) (Slp.reads_of (Slp.v 4))).
Proof.
  repeat split. intros [j Hj]. vm_compute in Hj.
  destruct Hj as [Hj|[Hj|[]]]; discriminate.
Qed.

(** C3, amended.  The aggregates [v0], [v1], [v2] and [v4] read products
    only; each of [v3], [v5], [v6], [v7], [v8] reads an aggregate assigned
    on an earlier line, and otherwise only products and earlier aggregates;
    [v7] reads [v3], and [v8] reads [v4] and [v7]. *)
Theorem aggregate_dependencies :
  (forall i, In i [0; 1; 2; 4] ->
     forallb Slp.is_M (Slp.reads_of (Slp.v i)) = true)
  /\ (forall i, In i [3; 5; 6; 7; 8] ->
        (exists j, j < i /\ In (Slp.v j) (Slp.reads_of (Slp.v i)))
        /\ (forall x, In x (Slp.reads_of (Slp.v i)) ->
              Slp.is_M x = true \/ exists j, j < i /\ x = Slp.v j))
  /\ In (Slp.v 3) (Slp.reads_of (Slp.v 7))
  /\ In (Slp.v 4) (Slp.reads_of (Slp.v 8))
  /\ In (Slp.v 7) (Slp.reads_of (Slp.v 8))
  /\ map fst Slp.v_aggregates = map Slp.v (seq 0 9).
Proof.
  split; [|split; [|repeat split; vm_compute; tauto]].
  - intros i Hi. simpl in Hi.
    destruct Hi as [<-|[<-|[<-|[<-|[]]]]]; reflexivity.
  - intros i Hi. simpl in Hi.
    destruct Hi as [<-|[<-|[<-|[<-|[<-|[]]]]]]; vm_compute; split.
    all: try (intros x [<-|[<-|[]]]; (left; reflexivity) || right).
    all: first [ exists 0; split; [lia|tauto]
               | exists 1; split; [lia|tauto]
               | exists 2; split; [lia|tauto]
               | exists 3; split; [lia|tauto]
               | exists 4; split; [lia|tauto]
               | exists 7; split; [lia|tauto] ].
Qed.

(** C4 as stated fails at [M1]: the first factor of line 38,
    [-A3 + A4 - A7], adds up three signed entries, so not every factor is
    a signed atom or a sum of two of them. *)
Lemma M1_factor_has_three_summands :
  Slp.rhs Slp.body (Slp.M 1)
  = Some (Slp.Mul
            (Slp.Sub (Slp.Add (Slp.Neg (Slp.Var (Slp.A 3)))
                              (Slp.Var (Slp.A 4)))
                     (Slp.Var (Slp.A 7)))
            (Slp.Neg (Slp.Var (Slp.u 1))))
  /\ Slp.summands
       (Slp.Sub (Slp.Add (Slp.Neg (Slp.Var (Slp.A 3))) (Slp.Var (Slp.A 4)))
                (Slp.Var (Slp.A 7))) = Some 3
  /\ ~ Forall (fun s => exists n1 n2,
                 Slp.factor_summands s = Some (n1, n2) /\ n1 <= 2 /\ n2 <= 2)
              Slp.products.
Proof.
  repeat split. intros HF.
  apply Forall_cons in HF as [_ HF]. apply Forall_cons in HF as [H1 _].
  destruct H1 as (n1 & n2 & Hs & Hn1 & _). vm_compute in Hs.
  injection Hs as <- <-. lia.
Qed.

(** C4, amended.  The product lines assign [M0..M22] in order; each
    right-hand side is one multiplication of two factors; each factor is a
    raw entry or preprocessed term, possibly negated, or a signed sum of two
    or of three of them; the factors with three summands are the first of
    [M1] and [M12] and the second of [M6] and [M19]. *)
Theorem products_have_two_small_factors :
  map fst Slp.products = map Slp.M (seq 0 23)
  /\ Forall (fun s => exists e1 e2 n1 n2,
               s.2 = Slp.Mul e1 e2
               /\ Slp.summands e1 = Some n1 /\ Slp.summands e2 = Some n2
               /\ 1 <= n1 <= 3 /\ 1 <= n2 <= 3)
            Slp.products
  /\ map fst (filter (fun s => Slp.factor_summands s = Some (3, 1))
                     Slp.products) = [Slp.M 1; Slp.M 12]
  /\ map fst (filter (fun s => Slp.factor_summands s = Some (1, 3))
                     Slp.products) = [Slp.M 6; Slp.M 19]
  /\ Forall (fun s => forall n1 n2,
               Slp.factor_summands s = Some (n1, n2) ->
               n1 = 3 \/ n2 = 3 -> In s.1 [Slp.M 1; Slp.M 6; Slp.M 12; Slp.M 19])
            Slp.products.
Proof.
  split; [reflexivity|]. split.
  { repeat (apply Forall_cons; split;
            [do 4 eexists; split; [reflexivity|];
             split; [vm_compute; reflexivity|];
             split; [vm_compute; reflexivity|]; lia|]).
    constructor. }
  split; [reflexivity|]. split; [reflexivity|].
  repeat (apply Forall_cons; split;
          [intros n1 n2 Hs Hn; vm_compute in Hs; injection Hs as <- <-;
           first [ lia | simpl; tauto ]|]).
  constructor.
Qed.

(** ** What a caller observes *)

Section Observations.
Context {T : Type} {ops : Scalar T}.
Implicit Types (h : gmap loc (list T)) (a b : list T).

Lemma valid_ravel h (X : ndarray) n :
  valid h X -> size X = n -> exists xs, ravel h X = Some xs /\ length xs = n.
Proof. intros (xs & Hr & Hl) <-. eauto. Qed.

Lemma observe_raises_left h (A B : ndarray) a :
  ravel h A = Some a -> length a <> 9 ->
  observe (fast_3x3_rank23 h A B) = Some (inr (unpack_error 9 a)).
Proof.
  intros Ha Hn. rewrite (call_raises_left _ _ _ _ Ha Hn). reflexivity.
Qed.

Lemma observe_raises_right h (A B : ndarray) a b :
  ravel h A = Some a -> ravel h B = Some b ->
  length a = 9 -> length b <> 9 ->
  observe (fast_3x3_rank23 h A B) = Some (inr (unpack_error 9 b)).
Proof.
  intros Ha Hb Hla Hlb.
  rewrite (call_raises_right _ _ _ _ _ Ha Hb Hla Hlb). reflexivity.
Qed.

Lemma observe_returns h (A B : ndarray)
      (A0 A1 A2 A3 A4 A5 A6 A7 A8 B0 B1 B2 B3 B4 B5 B6 B7 B8 : T) :
  ravel h A = Some [A0; A1; A2; A3; A4; A5; A6; A7; A8] ->
  ravel h B = Some [B0; B1; B2; B3; B4; B5; B6; B7; B8] ->
  observe (fast_3x3_rank23 h A B)
  = Some (inl ([3; 3], s_array (kernel A0 A1 A2 A3 A4 A5 A6 A7 A8
                                       B0 B1 B2 B3 B4 B5 B6 B7 B8))).
Proof.
  intros Ha Hb.
  rewrite (call_returns _ _ _ _ _ _ _ _ _ _ _ _ _ _ _ _ _ _ _ _ _ Ha Hb).
  unfold observe. cbn [mbind option_bind]. rewrite ravel_np_array.
  reflexivity.
Qed.

(** A call that returns or raises has read [A]; when [A] had nine
    elements it has read [B] too. *)
Lemma call_some_reads h (A B : ndarray) r :
  fast_3x3_rank23 h A B = Some r ->
  exists a, ravel h A = Some a
            /\ (length a = 9 -> exists b, ravel h B = Some b).
Proof.
  unfold fast_3x3_rank23. destruct (ravel h A) as [a|]; [|discriminate].
  cbn [mbind option_bind]. intros Hr. exists a. split; [reflexivity|].
  intros Hla. by_length a.
  destruct (ravel h B) as [b|]; [eauto|discriminate].
Qed.

(** The store after a call extends the store before it. *)
Lemma call_store h (A B : ndarray) o h' :
  fast_3x3_rank23 h A B = Some (o, h') ->
  h' = h \/ exists xs, h' = <[fresh (dom h) := xs]> h.
Proof.
  intros Hc. destruct (call_some_reads _ _ _ _ Hc) as (a & Ha & Hb).
  destruct (decide (length a = 9)) as [Hla|Hla].
  2:{ rewrite (call_raises_left _ _ _ _ Ha Hla) in Hc.
      injection Hc as _ <-. now left. }
  destruct (Hb Hla) as (b & Hb').
  destruct (decide (length b = 9)) as [Hlb|Hlb].
  2:{ rewrite (call_raises_right _ _ _ _ _ Ha Hb' Hla Hlb) in Hc.
      injection Hc as _ <-. now left. }
  by_length a. by_length b.
  rewrite (call_returns _ _ _ _ _ _ _ _ _ _ _ _ _ _ _ _ _ _ _ _ _ Ha Hb') in Hc.
  injection Hc as _ <-. right. eauto.
Qed.

(** C8.  A call leaves every buffer of the store, hence every array that
    existed before it and both of its arguments, as they were; and what a
    call returns or raises is determined by the elements of its two
    arguments: a call on arrays with the same elements, in the same store
    later or in any other store, is observed to give the same result. *)
Theorem fast_3x3_rank23_deterministic_and_pure
    h (A B : ndarray) o h' :
  fast_3x3_rank23 h A B = Some (o, h') ->
  (forall l buf, h !! l = Some buf -> h' !! l = Some buf)
  /\ (forall X xs, ravel h X = Some xs -> ravel h' X = Some xs)
  /\ ravel h' A = ravel h A /\ ravel h' B = ravel h B
  /\ (forall h2 (A2 B2 : ndarray),
        ravel h2 A2 = ravel h A -> ravel h2 B2 = ravel h B ->
        observe (fast_3x3_rank23 h2 A2 B2) = observe (Some (o, h')))
  /\ observe (fast_3x3_rank23 h' A B) = observe (Some (o, h')).
Proof.
  intros Hc.
  assert (Hbuf : forall l buf, h !! l = Some buf -> h' !! l = Some buf).
  { intros l buf Hl. destruct (call_store _ _ _ _ _ Hc) as [->|[xs ->]];
      [exact Hl|].
    rewrite lookup_insert_ne; [exact Hl|].
    intros <-. apply (is_fresh (dom h)), elem_of_dom. eauto. }
  assert (Hrav : forall X xs, ravel h X = Some xs -> ravel h' X = Some xs).
  { intros X xs HX. destruct (call_store _ _ _ _ _ Hc) as [->|[ys ->]];
      [exact HX|]. now apply ravel_alloc. }
  destruct (call_some_reads _ _ _ _ Hc) as (a & Ha & Hb).
  assert (Hdet : forall h2 (A2 B2 : ndarray),
            ravel h2 A2 = ravel h A -> ravel h2 B2 = ravel h B ->
            observe (fast_3x3_rank23 h2 A2 B2) = observe (Some (o, h'))).
  { intros h2 A2 B2 HA2 HB2. rewrite <- Hc. rewrite Ha in HA2.
    destruct (decide (length a = 9)) as [Hla|Hla].
    2:{ now rewrite (observe_raises_left _ _ _ _ HA2 Hla),
                    (observe_raises_left _ _ _ _ Ha Hla). }
    destruct (Hb Hla) as (b & Hb'). rewrite Hb' in HB2.
    destruct (decide (length b = 9)) as [Hlb|Hlb].
    2:{ now rewrite (observe_raises_right _ _ _ _ _ HA2 HB2 Hla Hlb),
                    (observe_raises_right _ _ _ _ _ Ha Hb' Hla Hlb). }
    by_length a. by_length b.
    now rewrite
      (observe_returns _ _ _ _ _ _ _ _ _ _ _ _ _ _ _ _ _ _ _ _ _ HA2 HB2),
      (observe_returns _ _ _ _ _ _ _ _ _ _ _ _ _ _ _ _ _ _ _ _ _ Ha Hb'). }
  split; [exact Hbuf|]. split; [exact Hrav|].
  assert (HA' : ravel h' A = ravel h A) by (rewrite Ha; now apply Hrav).
  split; [exact HA'|].
  destruct (decide (length a = 9)) as [Hla|Hla].
  - destruct (Hb Hla) as (b & Hb').
    assert (HB' : ravel h' B = ravel h B) by (rewrite Hb'; now apply Hrav).
    split; [exact HB'|]. split; [exact Hdet|]. now apply Hdet.
  - assert (Hh : h' = h).
    { rewrite (call_raises_left _ _ _ _ Ha Hla) in Hc. now injection Hc. }
    subst h'. split; [reflexivity|]. split; [exact Hdet|]. now apply Hdet.
Qed.
End Observations.

(** ** Correctness over a commutative ring *)

Section Correctness.
Context {R : Type} (rO rI : R) (radd rmul rsub : R -> R -> R) (ropp : R -> R).
Context (conv : list R -> list R).
Hypothesis Rth : ring_theory rO rI radd rmul rsub ropp eq.
Local Abbreviation RS := (ring_scalar radd rsub ropp rmul conv).
Implicit Types (h : gmap loc (list R)) (a b : list R).

Add Ring Rring : Rth.

(** The 23 products and their aggregation give the nine row-by-column
    sums: nine polynomial identities in the eighteen entries. *)
Lemma kernel_matmul (A0 A1 A2 A3 A4 A5 A6 A7 A8
                     B0 B1 B2 B3 B4 B5 B6 B7 B8 : R) :
  kernel (ops := RS) A0 A1 A2 A3 A4 A5 A6 A7 A8 B0 B1 B2 B3 B4 B5 B6 B7 B8
  = matmul (ops := RS) 3 rO [A0; A1; A2; A3; A4; A5; A6; A7; A8]
                            [B0; B1; B2; B3; B4; B5; B6; B7; B8].
Proof.
  cbv [kernel matmul dot entry flat_map map seq fold_left nth app
       Nat.mul Nat.add s_add s_sub s_neg s_mul ring_scalar].
  repeat (apply (f_equal2 cons); [ring|]). reflexivity.
Qed.





End Correctness.

(** ** The instrumented build: errors and operation counts *)

Section Instrumented.
Context {T : Type} {ops : Scalar T}.
Implicit Types (h : gmap loc (list T)) (a b : list T).

Lemma unpack_error_short a :
  length a < 9 ->
  unpack_error 9 a = ValueError (not_enough_values 9 (length a)).
Proof.
  intros Hl. unfold unpack_error.
  now destruct (Nat.ltb_spec (length a) 9); [|lia].
Qed.

Lemma unpack_error_long a :
  9 < length a -> unpack_error 9 a = ValueError (too_many_values 9).
Proof.
  intros Hl. unfold unpack_error.
  now destruct (Nat.ltb_spec (length a) 9); [lia|].
Qed.

(** C5, amended.  The only check is the count of nine made by the two
    unpackings.  An argument with fewer or more than nine elements makes
    the call raise Python's [ValueError] ([A] is unpacked first), with no
    ring operation carried out and the store untouched; two arguments of
    nine elements each make the call return, after the operations of one
    run of the body; there is no other outcome, and the instrumented build
    returns and raises what the function does. *)
Theorem unpacking_is_the_only_check h (A B : ndarray) :
  valid h A -> valid h B ->
  (size A < 9 ->
   fast_3x3_rank23_counted h A B
   = Some (Raises (ValueError (not_enough_values 9 (size A))), h, Slp.no_ops))
  /\ (9 < size A ->
      fast_3x3_rank23_counted h A B
      = Some (Raises (ValueError (too_many_values 9)), h, Slp.no_ops))
  /\ (size A = 9 -> size B < 9 ->
      fast_3x3_rank23_counted h A B
      = Some (Raises (ValueError (not_enough_values 9 (size B))), h,
              Slp.no_ops))
  /\ (size A = 9 -> 9 < size B ->
      fast_3x3_rank23_counted h A B
      = Some (Raises (ValueError (too_many_values 9)), h, Slp.no_ops))
  /\ (size A = 9 -> size B = 9 ->
      exists C h',
        fast_3x3_rank23_counted h A B = Some (Returns C, h', Slp.body_tally))
  /\ fst <$> fast_3x3_rank23_counted h A B = fast_3x3_rank23 h A B.
Proof.
  intros (a & Ha & Hla) (b & Hb & Hlb). rewrite <- Hla, <- Hlb.
  repeat split.
  - intros Hl. rewrite (counted_raises_left _ _ _ _ Ha) by lia.
    now rewrite unpack_error_short.
  - intros Hl. rewrite (counted_raises_left _ _ _ _ Ha) by lia.
    now rewrite unpack_error_long.
  - intros H9 Hl. rewrite (counted_raises_right _ _ _ _ _ Ha Hb) by lia.
    now rewrite unpack_error_short.
  - intros H9 Hl. rewrite (counted_raises_right _ _ _ _ _ Ha Hb) by lia.
    now rewrite unpack_error_long.
  - intros H9a H9b. by_length a. by_length b.
    rewrite (counted_returns _ _ _ _ _ _ _ _ _ _ _ _ _ _ _ _ _ _ _ _ _ Ha Hb).
    eauto.
  - apply counted_erase.
Qed.

(** C6, amended.  A call on two 3x3 arrays carries out 23 multiplications
    and 60 binary additions or subtractions, 83 together, and the 28 unary
    negations the source writes: 111 ring operations in total. *)
Theorem operation_count h (A B : ndarray) :
  valid h A -> valid h B -> shape A = [3; 3] -> shape B = [3; 3] ->
  exists C h' n,
    fast_3x3_rank23_counted h A B = Some (Returns C, h', n)
    /\ fast_3x3_rank23 h A B = Some (Returns C, h')
    /\ Slp.muls n = 23 /\ Slp.addsubs n = 60
    /\ Slp.muls n + Slp.addsubs n = 83
    /\ Slp.negs n = 28
    /\ Slp.muls n + Slp.addsubs n + Slp.negs n = 111.
Proof.
  intros HA HB HsA HsB.
  destruct (valid_ravel h A 9 HA) as (a & Ha & Hla);
    [unfold size; now rewrite HsA|].
  destruct (valid_ravel h B 9 HB) as (b & Hb & Hlb);
    [unfold size; now rewrite HsB|].
  by_length a. by_length b.
  do 3 eexists.
  split; [exact (counted_returns _ _ _ _ _ _ _ _ _ _ _ _ _ _ _ _ _ _ _ _ _
                                 Ha Hb)|].
  split; [exact (call_returns _ _ _ _ _ _ _ _ _ _ _ _ _ _ _ _ _ _ _ _ _
                              Ha Hb)|].
  repeat split.
Qed.
End Instrumented.

(** ** Fixed scenarios over the integers *)

(** C5 as stated fails on a flat array of nine elements: it is not a 3x3
    matrix, yet the call returns, and what it returns is the product. *)
Lemma flat_array_is_accepted :
  let h := store2 [1; 2; 3; 4; 5; 6; 7; 8; 9]%Z [1; 0; 0; 0; 1; 0; 0; 0; 1]%Z in
  let A := view 0 [9] in
  let B := view 1 [3; 3] in
  valid h A /\ valid h B /\ shape A <> [3; 3]
  /\ observe (fast_3x3_rank23 h A B)
     = Some (inl ([3; 3], [1; 2; 3; 4; 5; 6; 7; 8; 9]%Z))
  /\ ~ (exists e h', fast_3x3_rank23 h A B = Some (Raises e, h')).
Proof.
  cbv zeta. split; [eexists; split; vm_compute; reflexivity|].
  split; [eexists; split; vm_compute; reflexivity|].
  split; [discriminate|]. split; [vm_compute; reflexivity|].
  intros (e & h' & He). vm_compute in He. discriminate.
Qed.

(** Python ints that all fit in int64 are stored unchanged. *)
Lemma py_int_array_keeps_int64 (xs : list Z) :
  forallb in_int64 xs = true -> py_int_array xs = xs.
Proof.
  intros Hall. unfold py_int_array. rewrite Hall.
  now destruct (negb _).
Qed.


(** C6 as stated fails on every call: besides the 23 multiplications and
    the 60 binary additions and subtractions, the body carries out its 28
    unary negations, 111 ring operations and not 83. *)
Lemma call_carries_out_111_operations :
  let h := store2 [1; 2; 3; 4; 5; 6; 7; 8; 9]%Z [9; 8; 7; 6; 5; 4; 3; 2; 1]%Z in
  exists C h' n,
    fast_3x3_rank23_counted h (view 0 [3; 3]) (view 1 [3; 3])
    = Some (Returns C, h', n)
    /\ Slp.negs n = 28
    /\ Slp.muls n + Slp.addsubs n + Slp.negs n = 111
    /\ Slp.muls n + Slp.addsubs n + Slp.negs n <> 83.
Proof.
  cbv zeta. do 3 eexists. split; [vm_compute; reflexivity|].
  split; [reflexivity|]. split; [reflexivity|]. discriminate.
Qed.



(** Eight elements: the unpacking of line 18 raises [ValueError]. *)
Example eight_elements_raise_ValueError :
  observe (fast_3x3_rank23
             (store2 [1; 2; 3; 4; 5; 6; 7; 8]%Z [1; 0; 0; 0; 1; 0; 0; 0; 1]%Z)
             (view 0 [8]) (view 1 [3; 3]))
  = Some (inr (ValueError (not_enough_values 9 8))).
Proof. vm_compute. reflexivity. Qed.

(** C7.  Zero times zero is zero; identity times identity is the identity;
    [[1,2,3],[4,5,6],[7,8,9]] times the identity is itself; all-ones times
    all-ones is all-threes. *)
Theorem fixed_scenarios :
  call_3x3 [0; 0; 0; 0; 0; 0; 0; 0; 0]%Z [0; 0; 0; 0; 0; 0; 0; 0; 0]%Z
  = Some (inl ([3; 3], [0; 0; 0; 0; 0; 0; 0; 0; 0]%Z))
  /\ call_3x3 [1; 0; 0; 0; 1; 0; 0; 0; 1]%Z [1; 0; 0; 0; 1; 0; 0; 0; 1]%Z
     = Some (inl ([3; 3], [1; 0; 0; 0; 1; 0; 0; 0; 1]%Z))
  /\ call_3x3 [1; 2; 3; 4; 5; 6; 7; 8; 9]%Z [1; 0; 0; 0; 1; 0; 0; 0; 1]%Z
     = Some (inl ([3; 3], [1; 2; 3; 4; 5; 6; 7; 8; 9]%Z))
  /\ call_3x3 [1; 1; 1; 1; 1; 1; 1; 1; 1]%Z [1; 1; 1; 1; 1; 1; 1; 1; 1]%Z
     = Some (inl ([3; 3], [3; 3; 3; 3; 3; 3; 3; 3; 3]%Z)).
Proof. repeat split; vm_compute; reflexivity. Qed.

(** ** The theorems at concrete integer inputs *)

Ltac valid_by_reading := eexists; split; vm_compute; reflexivity.




(** [unpacking_is_the_only_check] on arrays of eight and of ten elements. *)
Lemma unpacking_is_the_only_check_witness :
  let h := store2 [1; 2; 3; 4; 5; 6; 7; 8]%Z
                  [1; 0; 0; 0; 1; 0; 0; 0; 1; 0]%Z in
  let A := view 0 [2; 4] in
  let B := view 1 [10] in
  (valid h A /\ valid h B)
  /\ fast_3x3_rank23_counted h A B
     = Some (Raises (ValueError (not_enough_values 9 8)), h, Slp.no_ops)
  /\ fast_3x3_rank23_counted h B A
     = Some (Raises (ValueError (too_many_values 9)), h, Slp.no_ops).
Proof.
  cbv zeta. split; [split; valid_by_reading|]. split.
  - destruct (unpacking_is_the_only_check
                (store2 [1; 2; 3; 4; 5; 6; 7; 8]%Z
                        [1; 0; 0; 0; 1; 0; 0; 0; 1; 0]%Z)
                (view 0 [2; 4]) (view 1 [10])) as (Hshort & _);
      [valid_by_reading|valid_by_reading|].
    apply Hshort. vm_compute. lia.
  - destruct (unpacking_is_the_only_check
                (store2 [1; 2; 3; 4; 5; 6; 7; 8]%Z
                        [1; 0; 0; 0; 1; 0; 0; 0; 1; 0]%Z)
                (view 1 [10]) (view 0 [2; 4])) as (_ & Hlong & _);
      [valid_by_reading|valid_by_reading|].
    apply Hlong. vm_compute. lia.
Defined.

(** [operation_count] on [[1..9]] times [[9..1]]. *)
Lemma operation_count_witness :
  let h := store2 [1; 2; 3; 4; 5; 6; 7; 8; 9]%Z [9; 8; 7; 6; 5; 4; 3; 2; 1]%Z in
  let A := view 0 [3; 3] in
  let B := view 1 [3; 3] in
  (valid h A /\ valid h B /\ shape A = [3; 3] /\ shape B = [3; 3])
  /\ exists C h' n,
       fast_3x3_rank23_counted h A B = Some (Returns C, h', n)
       /\ fast_3x3_rank23 h A B = Some (Returns C, h')
       /\ Slp.muls n = 23 /\ Slp.addsubs n = 60
       /\ Slp.muls n + Slp.addsubs n = 83
       /\ Slp.negs n = 28
       /\ Slp.muls n + Slp.addsubs n + Slp.negs n = 111.
Proof.
  cbv zeta.
  split; [split; [valid_by_reading|split; [valid_by_reading|split;
          reflexivity]]|].
  apply (operation_count
           (store2 [1; 2; 3; 4; 5; 6; 7; 8; 9]%Z [9; 8; 7; 6; 5; 4; 3; 2; 1]%Z)
           (view 0 [3; 3]) (view 1 [3; 3]));
    [valid_by_reading|valid_by_reading|reflexivity|reflexivity].
Defined.

(** [fast_3x3_rank23_deterministic_and_pure] on a call and its repetition. *)
Lemma fast_3x3_rank23_deterministic_and_pure_witness :
  let h := store2 [1; 2; 3; 4; 5; 6; 7; 8; 9]%Z [9; 8; 7; 6; 5; 4; 3; 2; 1]%Z in
  let A := view 0 [3; 3] in
  let B := view 1 [3; 3] in
  let C := view 2 [3; 3] in
  let h' := <[2 := [30; 24; 18; 84; 69; 54; 138; 114; 90]%Z]> h in
  fast_3x3_rank23 h A B = Some (Returns C, h')
  /\ ravel h' A = ravel h A /\ ravel h' B = ravel h B
  /\ observe (fast_3x3_rank23 h' A B) = observe (Some (Returns C, h')).
Proof.
  cbv zeta.
  assert (Hc : fast_3x3_rank23
                 (store2 [1; 2; 3; 4; 5; 6; 7; 8; 9]%Z
                         [9; 8; 7; 6; 5; 4; 3; 2; 1]%Z)
                 (view 0 [3; 3]) (view 1 [3; 3])
               = Some (Returns (view 2 [3; 3]),
                       <[2 := [30; 24; 18; 84; 69; 54; 138; 114; 90]%Z]>
                         (store2 [1; 2; 3; 4; 5; 6; 7; 8; 9]%Z
                                 [9; 8; 7; 6; 5; 4; 3; 2; 1]%Z)))
    by (vm_compute; reflexivity).
  split; [exact Hc|].
  destruct (fast_3x3_rank23_deterministic_and_pure _ _ _ _ _ Hc)
    as (_ & _ & HA & HB & _ & Hagain).
  split; [exact HA|]. split; [exact HB|exact Hagain].
Defined.

(** * Further properties of the function *)

(** ** Scalars are treated opaquely *)

Section Homomorphism.
Context {T U : Type} {opsT : Scalar T} {opsU : Scalar U} (f : T -> U).
Local Open Scope scalar_scope.
Hypothesis f_add : forall x y, f (x + y) = f x + f y.
Hypothesis f_sub : forall x y, f (x - y) = f x - f y.
Hypothesis f_neg : forall x, f (- x) = - f x.
Hypothesis f_mul : forall x y, f (x * y) = f x * f y.

Lemma kernel_hom (A0 A1 A2 A3 A4 A5 A6 A7 A8
                  B0 B1 B2 B3 B4 B5 B6 B7 B8 : T) :
  kernel (f A0) (f A1) (f A2) (f A3) (f A4) (f A5) (f A6) (f A7) (f A8)
         (f B0) (f B1) (f B2) (f B3) (f B4) (f B5) (f B6) (f B7) (f B8)
  = map f (kernel A0 A1 A2 A3 A4 A5 A6 A7 A8
                  B0 B1 B2 B3 B4 B5 B6 B7 B8).
Proof.
  cbv [kernel map].
  repeat (apply (f_equal2 cons);
          [repeat (rewrite f_add || rewrite f_sub
                   || rewrite f_neg || rewrite f_mul); reflexivity|]).
  reflexivity.
Qed.

Lemma entry_hom n z (X : list T) i j :
  entry n (f z) (map f X) i j = f (entry n z X i j).
Proof. unfold entry. apply map_nth. Qed.

Lemma dot_hom n z (X Y : list T) i j :
  dot n (f z) (map f X) (map f Y) i j = f (dot n z X Y i j).
Proof.
  unfold dot.
  enough (Hacc : forall ks acc,
            fold_left (fun a k => a + entry n (f z) (map f X) i k
                                     * entry n (f z) (map f Y) k j) ks (f acc)
            = f (fold_left (fun a k => a + entry n z X i k * entry n z Y k j)
                           ks acc)) by apply Hacc.
  induction ks as [|k ks IH]; intros acc; [reflexivity|].
  cbn [fold_left]. rewrite !entry_hom, <- f_mul, <- f_add. apply IH.
Qed.

Lemma matmul_hom n z (X Y : list T) :
  matmul n (f z) (map f X) (map f Y) = map f (matmul n z X Y).
Proof.
  unfold matmul.
  enough (Hrows : forall rows cols,
            flat_map (fun i => map (fun j => dot n (f z) (map f X) (map f Y)
                                                 i j) cols) rows
            = map f (flat_map (fun i => map (fun j => dot n z X Y i j) cols)
                              rows)) by apply Hrows.
  intros rows cols. induction rows as [|i rows IH]; [reflexivity|].
  cbn [flat_map]. rewrite IH, map_app. f_equal.
  rewrite map_map. apply map_ext. intros j. apply dot_hom.
Qed.

Lemma ravel_fmap (h : gmap loc (list T)) (a : ndarray) :
  ravel (map f <$> h) a = map f <$> ravel h a.
Proof.
  unfold ravel. rewrite lookup_fmap.
  destruct (h !! base a) as [buf|]; [|reflexivity]. cbn [fmap option_fmap
    option_map mbind option_bind].
  induction (layout a) as [|o os IH]; [reflexivity|].
  cbn [mapM]. change (map f buf) with (f <$> buf) in *.
  rewrite list_lookup_fmap. destruct (buf !! o) as [x|]; [|reflexivity].
  cbn [fmap option_fmap option_map mbind option_bind]. rewrite IH.
  now destruct (mapM (fun o => buf !! o) os).
Qed.

Lemma unpack_error_map n (xs : list T) :
  unpack_error n (map f xs) = unpack_error n xs.
Proof. unfold unpack_error. now rewrite length_map. Qed.

End Homomorphism.

(** ** Rings that need not be commutative *)

Section AnyRing.
Context {R : Type} (rO rI : R) (radd rmul rsub : R -> R -> R) (ropp : R -> R).
Hypothesis laws : ring_laws rO rI radd rmul rsub ropp.
Context (conv : list R -> list R).
Local Abbreviation RS := (ring_scalar radd rsub ropp rmul conv).

(** X2.  Every product of the scheme has its factor from [A] on the left
    and its factor from [B] on the right, so the nine values lines 21-81
    compute are the entries of the matrix product over any ring,
    commutative or not (such as a ring of square blocks). *)
Theorem kernel_is_matrix_product_in_any_ring
    (A0 A1 A2 A3 A4 A5 A6 A7 A8 B0 B1 B2 B3 B4 B5 B6 B7 B8 : R) :
  kernel (ops := RS) A0 A1 A2 A3 A4 A5 A6 A7 A8 B0 B1 B2 B3 B4 B5 B6 B7 B8
  = matmul (ops := RS) 3 rO [A0; A1; A2; A3; A4; A5; A6; A7; A8]
                            [B0; B1; B2; B3; B4; B5; B6; B7; B8].
Proof.
  pose (Ro := @Ncring.Build_Ring_ops R rO rI radd rmul rsub ropp eq).
  assert (Rr : @Ncring.Ring R rO rI radd rmul rsub ropp eq Ro).
  { destruct laws.
    constructor; try (intros ? ? -> ? ? ->; reflexivity);
      try (intros ? ? ->; reflexivity); try exact _; assumption. }
  cbv [kernel matmul dot entry flat_map map seq fold_left nth app
       Nat.mul Nat.add s_add s_sub s_neg s_mul ring_scalar].
  repeat (apply (f_equal2 cons);
          [change (@eq R)
             with (@Algebra_syntax.equality R
                     (@Ncring.eq_notation R rO rI radd rmul rsub ropp eq Ro));
           Ncring_tac.non_commutative_ring|]).
  reflexivity.
Qed.
End AnyRing.

(** ** int64 arithmetic *)

Section Int64.
Local Open Scope Z_scope.

Lemma wrap64_mod z : wrap64 z mod 2 ^ 64 = z mod 2 ^ 64.
Proof.
  unfold wrap64. rewrite Zminus_mod_idemp_l. f_equal. lia.
Qed.

Lemma wrap64_congr x y : x mod 2 ^ 64 = y mod 2 ^ 64 -> wrap64 x = wrap64 y.
Proof.
  intros Hxy. unfold wrap64. f_equal.
  rewrite (Z.add_mod x), (Z.add_mod y), Hxy by lia. reflexivity.
Qed.

Lemma wrap64_is_int64 z : is_int64 (wrap64 z).
Proof.
  unfold is_int64, wrap64.
  pose proof (Z.mod_pos_bound (z + 2 ^ 63) (2 ^ 64)). lia.
Qed.

Lemma wrap64_id z : is_int64 z -> wrap64 z = z.
Proof.
  unfold is_int64, wrap64. intros Hz. rewrite Z.mod_small; lia.
Qed.

Lemma map_wrap64_id zs : Forall is_int64 zs -> map wrap64 zs = zs.
Proof.
  induction 1 as [|z zs Hz _ IH]; [reflexivity|].
  cbn [map]. now rewrite wrap64_id, IH.
Qed.

Lemma wrap64_add x y :
  wrap64 (x + y) = s_add (Scalar := int64_scalar) (wrap64 x) (wrap64 y).
Proof.
  apply wrap64_congr.
  now rewrite (Z.add_mod (wrap64 x)), !wrap64_mod, <- Z.add_mod by lia.
Qed.

Lemma wrap64_sub x y :
  wrap64 (x - y) = s_sub (Scalar := int64_scalar) (wrap64 x) (wrap64 y).
Proof.
  apply wrap64_congr.
  now rewrite (Zminus_mod (wrap64 x)), !wrap64_mod, <- Zminus_mod.
Qed.

Lemma wrap64_neg x :
  wrap64 (- x) = s_neg (Scalar := int64_scalar) (wrap64 x).
Proof.
  apply wrap64_congr. change (- x) with (0 - x).
  change (- wrap64 x) with (0 - wrap64 x).
  now rewrite (Zminus_mod 0 (wrap64 x)), wrap64_mod, <- Zminus_mod.
Qed.

Lemma wrap64_mul x y :
  wrap64 (x * y) = s_mul (Scalar := int64_scalar) (wrap64 x) (wrap64 y).
Proof.
  apply wrap64_congr.
  now rewrite (Z.mul_mod (wrap64 x)), !wrap64_mod, <- Z.mul_mod by lia.
Qed.

(** Over int64 values the body computes the wrapped product. *)
Lemma kernel_int64 (a b : list Z) :
  length a = 9%nat -> length b = 9%nat ->
  Forall is_int64 a -> Forall is_int64 b ->
  forall A0 A1 A2 A3 A4 A5 A6 A7 A8 B0 B1 B2 B3 B4 B5 B6 B7 B8,
    a = [A0; A1; A2; A3; A4; A5; A6; A7; A8] ->
    b = [B0; B1; B2; B3; B4; B5; B6; B7; B8] ->
    kernel (ops := int64_scalar)
           A0 A1 A2 A3 A4 A5 A6 A7 A8 B0 B1 B2 B3 B4 B5 B6 B7 B8
    = matmul (ops := int64_scalar) 3 0 a b
    /\ matmul (ops := int64_scalar) 3 0 a b
       = map wrap64 (matmul (ops := Z_scalar) 3 0 a b).
Proof.
  intros _ _ HFa HFb A0 A1 A2 A3 A4 A5 A6 A7 A8
         B0 B1 B2 B3 B4 B5 B6 B7 B8 Ea Eb.
  assert (Hmm : matmul (ops := int64_scalar) 3 0 a b
                = map wrap64 (matmul (ops := Z_scalar) 3 0 a b)).
  { rewrite <- (matmul_hom (opsT := Z_scalar) (opsU := int64_scalar) wrap64
                           wrap64_add wrap64_mul).
    now rewrite !map_wrap64_id. }
  split; [|exact Hmm]. rewrite Hmm. subst a b.
  rewrite <- (kernel_matmul 0 1 Z.add Z.mul Z.sub Z.opp py_int_array Zth).
  rewrite <- (kernel_hom (opsT := Z_scalar) (opsU := int64_scalar) wrap64
                         wrap64_add wrap64_sub wrap64_neg wrap64_mul).
  apply map_wrap64_id in HFa, HFb. cbn [map] in HFa, HFb.
  injection HFa as -> -> -> -> -> -> -> -> ->.
  injection HFb as -> -> -> -> -> -> -> -> ->. reflexivity.
Qed.
End Int64.

(** ** The function against [A @ B] on int64 arrays *)

Section AgainstNumpy.
Implicit Types (h : gmap loc (list Z)) (a b : list Z).
Local Abbreviation I64 := int64_scalar.

Lemma call_int64 h (A B : ndarray) a b :
  ravel h A = Some a -> ravel h B = Some b ->
  length a = 9 -> length b = 9 ->
  Forall is_int64 a -> Forall is_int64 b ->
  let c := matmul (ops := I64) 3 0%Z a b in
  let C := {| base := fresh (dom h); shape := [3; 3]; layout := seq 0 9 |} in
  fast_3x3_rank23 (ops := I64) h A B = Some (Returns C, <[fresh (dom h) := c]> h)
  /\ c = map wrap64 (matmul (ops := Z_scalar) 3 0%Z a b).
Proof.
  intros Ha Hb Hla Hlb HFa HFb.
  pose proof (kernel_int64 a b Hla Hlb HFa HFb) as Hk.
  by_length a. by_length b.
  destruct (Hk _ _ _ _ _ _ _ _ _ _ _ _ _ _ _ _ _ _ eq_refl eq_refl)
    as [Hkm Hmw].
  cbv zeta. split; [|exact Hmw].
  rewrite (call_returns _ _ _ _ _ _ _ _ _ _ _ _ _ _ _ _ _ _ _ _ _ Ha Hb).
  now rewrite Hkm.
Qed.

(** One round of the driver's loop on two 3x3 int64 arrays. *)
Lemma round_passes h (A B : ndarray) a b :
  ravel h A = Some a -> ravel h B = Some b ->
  shape A = [3; 3] -> shape B = [3; 3] ->
  length a = 9 -> length b = 9 ->
  Forall is_int64 a -> Forall is_int64 b ->
  exists C h3 D h4,
    fast_3x3_rank23 (ops := I64) h A B = Some (Returns C, h3)
    /\ np_matmul (ops := I64) 0%Z h3 A B = Some (D, h4)
    /\ np_array_equal h4 C D = Some true
    /\ forall X xs, ravel h X = Some xs -> ravel h4 X = Some xs.
Proof.
  intros Ha Hb HsA HsB Hla Hlb HFa HFb.
  destruct (call_int64 h A B a b Ha Hb Hla Hlb HFa HFb) as [Hc _].
  cbv zeta in Hc.
  set (c := matmul (ops := I64) 3 0%Z a b) in *.
  set (h3 := <[fresh (dom h) := c]> h) in *.
  assert (Hlc : length c = 9).
  { unfold c, matmul. now rewrite length_flat_map. }
  assert (HC3 : ravel h3 {| base := fresh (dom h); shape := [3; 3];
                            layout := seq 0 9 |} = Some c).
  { rewrite <- Hlc. apply ravel_np_array. }
  assert (Ha3 : ravel h3 A = Some a) by now apply ravel_alloc.
  assert (Hb3 : ravel h3 B = Some b) by now apply ravel_alloc.
  do 4 eexists. split; [exact Hc|]. split.
  { unfold np_matmul. rewrite HsA, HsB.
    destruct (decide (3 = 3 /\ 3 = 3 /\ 3 = 3)) as [_|Hn]; [|tauto].
    rewrite Ha3, Hb3. reflexivity. }
  fold c. unfold alloc. cbn [fst snd]. split.
  - unfold np_array_equal.
    rewrite (ravel_alloc h3 _ c c HC3). cbn [mbind option_bind].
    rewrite (ravel_np_array h3 c [3; 3]). cbn [mbind option_bind shape].
    now rewrite !bool_decide_eq_true_2.
  - intros X xs HX. apply ravel_alloc. now apply ravel_alloc.
Qed.

(** X3.  On any two 3x3 int64 arrays, also when int64 arithmetic wraps
    around, the array the function returns passes the driver's check: it
    has the shape and the elements of NumPy's [A @ B], and the arrays that
    existed before are unchanged. *)
Theorem int64_result_equals_numpy_matmul h (A B : ndarray) a b :
  ravel h A = Some a -> ravel h B = Some b ->
  shape A = [3; 3] -> shape B = [3; 3] ->
  length a = 9 -> length b = 9 ->
  Forall is_int64 a -> Forall is_int64 b ->
  exists C h3 D h4,
    fast_3x3_rank23 (ops := I64) h A B = Some (Returns C, h3)
    /\ np_matmul (ops := I64) 0%Z h3 A B = Some (D, h4)
    /\ np_array_equal h4 C D = Some true
    /\ forall X xs, ravel h X = Some xs -> ravel h4 X = Some xs.
Proof. apply round_passes. Qed.

(** X4.  When every entry of the true integer product fits in int64, the
    call on int64 arrays returns the true product, whether or not the
    products and sums computed on the way wrapped around. *)
Theorem int64_result_exact_when_product_fits h (A B : ndarray) a b :
  ravel h A = Some a -> ravel h B = Some b ->
  length a = 9 -> length b = 9 ->
  Forall is_int64 a -> Forall is_int64 b ->
  Forall is_int64 (matmul (ops := Z_scalar) 3 0%Z a b) ->
  observe (fast_3x3_rank23 (ops := I64) h A B)
  = Some (inl ([3; 3], matmul (ops := Z_scalar) 3 0%Z a b)).
Proof.
  intros Ha Hb Hla Hlb HFa HFb Hfit.
  destruct (call_int64 h A B a b Ha Hb Hla Hlb HFa HFb) as [Hc Hw].
  cbv zeta in Hc, Hw. rewrite Hc. unfold observe. cbn [mbind option_bind].
  assert (Hlc : length (matmul (ops := I64) 3 0%Z a b) = 9).
  { unfold matmul. now rewrite length_flat_map. }
  rewrite <- Hlc at 1. rewrite ravel_np_array. cbn [mbind option_bind shape].
  now rewrite Hw, map_wrap64_id.
Qed.

(** One round after another: the loop never reaches a failed assertion. *)
Lemma test_loop_passes (rng : nat -> list Z) :
  (forall k, length (rng k) = 9 /\ Forall is_int64 (rng k)) ->
  forall n k h,
    test_loop (ops := I64) 0%Z rng n k h
    = Some (Printed "All 1,000 random tests passed").
Proof.
  intros Hrng. induction n as [|n IH]; intros k h; [reflexivity|].
  cbn [test_loop]. unfold alloc at 1 2.
  destruct (Hrng k) as [HlA HFA]. destruct (Hrng (S k)) as [HlB HFB].
  set (h1 := <[fresh (dom h) := rng k]> h).
  set (h2 := <[fresh (dom h1) := rng (S k)]> h1).
  set (A := {| base := fresh (dom h); shape := [3; 3];
               layout := seq 0 (length (rng k)) |}).
  set (B := {| base := fresh (dom h1); shape := [3; 3];
               layout := seq 0 (length (rng (S k))) |}).
  assert (HA1 : ravel h1 A = Some (rng k)) by apply ravel_np_array.
  assert (HA2 : ravel h2 A = Some (rng k)) by now apply ravel_alloc.
  assert (HB2 : ravel h2 B = Some (rng (S k))) by apply ravel_np_array.
  destruct (round_passes h2 A B _ _ HA2 HB2
              eq_refl eq_refl HlA HlB HFA HFB)
    as (C & h3 & D & h4 & Hc & Hm & He & _).
  rewrite Hc. cbn [mbind option_bind]. rewrite Hm. cbn [mbind option_bind].
  rewrite He. cbn [mbind option_bind]. apply IH.
Qed.

(** X5.  Whatever 3x3 int64 arrays the generator draws, the driver raises
    no [AssertionError] and no other exception in any of its 1000 rounds and
    ends by printing its message; the draws of [rng.integers(-9, 10)] are
    such arrays. *)
Theorem main_prints_success (rng : nat -> list Z) :
  (forall k, length (rng k) = 9 /\ Forall (fun x => -9 <= x < 10)%Z (rng k)) ->
  main rng = Some (Printed "All 1,000 random tests passed").
Proof.
  intros Hrng. apply test_loop_passes. intros k.
  destruct (Hrng k) as [Hl HF]. split; [exact Hl|].
  eapply Forall_impl; [exact HF|]. unfold is_int64. intros x Hx.
  cbv beta in Hx. lia.
Qed.
End AgainstNumpy.

(** ** The further properties at concrete inputs *)

Lemma Mat2_ring_laws :
  ring_laws Mat2.zero Mat2.one Mat2.add Mat2.mul Mat2.sub Mat2.opp.
Proof.
  split; repeat intros [[[? ?] ?] ?];
    cbv [Mat2.zero Mat2.one Mat2.add Mat2.mul Mat2.sub Mat2.opp];
    repeat apply (f_equal2 pair); ring.
Qed.

Lemma Mat2_mul_not_commutative :
  Mat2.mul (0, 1, 0, 0)%Z (0, 0, 1, 0)%Z
  <> Mat2.mul (0, 0, 1, 0)%Z (0, 1, 0, 0)%Z.
Proof. discriminate. Qed.


(** [kernel_is_matrix_product_in_any_ring] on 2x2 blocks. *)
Lemma kernel_is_matrix_product_in_any_ring_witness :
  let x : Mat2.t := (0, 1, 0, 0)%Z in
  let y : Mat2.t := (0, 0, 1, 0)%Z in
  let ops := ring_scalar Mat2.add Mat2.sub Mat2.opp Mat2.mul (fun xs => xs) in
  (ring_laws Mat2.zero Mat2.one Mat2.add Mat2.mul Mat2.sub Mat2.opp
   /\ Mat2.mul x y <> Mat2.mul y x)
  /\ kernel (ops := ops) x y x y Mat2.one x y x y
                         y y x Mat2.one x x y Mat2.zero x
     = matmul (ops := ops) 3 Mat2.zero
              [x; y; x; y; Mat2.one; x; y; x; y]
              [y; y; x; Mat2.one; x; x; y; Mat2.zero; x].
Proof.
  cbv zeta. split; [split; [exact Mat2_ring_laws|discriminate]|].
  apply (kernel_is_matrix_product_in_any_ring
           Mat2.zero Mat2.one Mat2.add Mat2.mul Mat2.sub Mat2.opp
           Mat2_ring_laws (fun xs => xs)).
Defined.

Ltac all_int64 := repeat constructor; unfold is_int64; lia.

(** [int64_result_equals_numpy_matmul] on entries whose products wrap. *)
Lemma int64_result_equals_numpy_matmul_witness :
  let a := [2 ^ 62; 2; 3; 4; 5; 6; 7; 8; 9]%Z in
  let b := [9; 8; 7; 6; 5; 4; 3; 2; 2 ^ 62]%Z in
  let h := store2 a b in
  (Forall is_int64 a /\ Forall is_int64 b)
  /\ exists C h3 D h4,
       fast_3x3_rank23 (ops := int64_scalar) h (view 0 [3; 3]) (view 1 [3; 3])
       = Some (Returns C, h3)
       /\ np_matmul (ops := int64_scalar) 0%Z h3 (view 0 [3; 3])
                    (view 1 [3; 3]) = Some (D, h4)
       /\ np_array_equal h4 C D = Some true
       /\ forall X xs, ravel h X = Some xs -> ravel h4 X = Some xs.
Proof.
  cbv zeta. split; [split; all_int64|].
  apply (int64_result_equals_numpy_matmul
           (store2 [2 ^ 62; 2; 3; 4; 5; 6; 7; 8; 9]%Z
                   [9; 8; 7; 6; 5; 4; 3; 2; 2 ^ 62]%Z)
           (view 0 [3; 3]) (view 1 [3; 3])
           [2 ^ 62; 2; 3; 4; 5; 6; 7; 8; 9]%Z
           [9; 8; 7; 6; 5; 4; 3; 2; 2 ^ 62]%Z);
    first [reflexivity | all_int64].
Defined.

(** [int64_result_exact_when_product_fits]: the pre-addition
    [t1 = A4 + A5] wraps to [-2^63], yet the result is the true product. *)
Lemma int64_result_exact_when_product_fits_witness :
  let a := [2 ^ 62; 2 ^ 62; 2 ^ 62; 2 ^ 62; 2 ^ 62; 2 ^ 62;
            2 ^ 62; 2 ^ 62; 2 ^ 62]%Z in
  let b := [1; 2; 3; -1; -2; -3; 1; 1; 1]%Z in
  let h := store2 a b in
  s_add (Scalar := int64_scalar) (2 ^ 62)%Z (2 ^ 62)%Z = (- 2 ^ 63)%Z
  /\ Forall is_int64 (matmul (ops := Z_scalar) 3 0%Z a b)
  /\ observe (fast_3x3_rank23 (ops := int64_scalar) h
                              (view 0 [3; 3]) (view 1 [3; 3]))
     = Some (inl ([3; 3],
                  [2 ^ 62; 2 ^ 62; 2 ^ 62; 2 ^ 62; 2 ^ 62; 2 ^ 62;
                   2 ^ 62; 2 ^ 62; 2 ^ 62]%Z)).
Proof.
  cbv zeta. split; [reflexivity|].
  assert (E : matmul (ops := Z_scalar) 3 0%Z
                [2 ^ 62; 2 ^ 62; 2 ^ 62; 2 ^ 62; 2 ^ 62; 2 ^ 62;
                 2 ^ 62; 2 ^ 62; 2 ^ 62]%Z
                [1; 2; 3; -1; -2; -3; 1; 1; 1]%Z
              = [2 ^ 62; 2 ^ 62; 2 ^ 62; 2 ^ 62; 2 ^ 62; 2 ^ 62;
                 2 ^ 62; 2 ^ 62; 2 ^ 62]%Z) by (vm_compute; reflexivity).
  split; [rewrite E; all_int64|]. rewrite <- E.
  apply (int64_result_exact_when_product_fits
           (store2 [2 ^ 62; 2 ^ 62; 2 ^ 62; 2 ^ 62; 2 ^ 62; 2 ^ 62;
                    2 ^ 62; 2 ^ 62; 2 ^ 62]%Z
                   [1; 2; 3; -1; -2; -3; 1; 1; 1]%Z)
           (view 0 [3; 3]) (view 1 [3; 3]));
    first [reflexivity | rewrite E; all_int64 | all_int64].
Defined.

(** [main_prints_success] for a generator cycling through -9..9. *)
Lemma main_prints_success_witness :
  let rng := fun k : nat =>
    map (fun i : nat => (Z.of_nat (k + i) mod 19 - 9)%Z) (seq 0 9) in
  (forall k, length (rng k) = 9
             /\ Forall (fun x => -9 <= x < 10)%Z (rng k))
  /\ main rng = Some (Printed "All 1,000 random tests passed").
Proof.
  cbv zeta.
  assert (Hrng : forall k,
            length (map (fun i : nat => (Z.of_nat (k + i) mod 19 - 9)%Z)
                        (seq 0 9)) = 9
            /\ Forall (fun x => -9 <= x < 10)%Z
                      (map (fun i : nat => (Z.of_nat (k + i) mod 19 - 9)%Z)
                           (seq 0 9))).
  { intros k. split; [reflexivity|]. cbn [map seq].
    repeat constructor;
      match goal with
      | |- context [(?z mod 19)%Z] =>
          pose proof (Z.mod_pos_bound z 19); lia
      end. }
  split; [exact Hrng|]. exact (main_prints_success _ Hrng).
Defined.

(** ** No overflow for bounded entries *)

Section Magnitudes.
Local Open Scope Z_scope.
Variable b : Z.
Hypothesis b_pos : 1 <= b.

(** A ghost environment: each local with its value and its bound. *)
Local Abbreviation genv := (list (Slp.var * (Z * (Z * nat)))).
Local Abbreviation vals := (map (prod_map id (@fst Z (Z * nat)))).
Local Abbreviation chks :=
  (map (prod_map id (fun p : Z * (Z * nat) => Some (fst p)))).
Local Abbreviation bnds := (map (prod_map id (@snd Z (Z * nat)))).

Local Abbreviation within := (Slp.within b).

Lemma get_map {V W : Type} (f : V -> W) (ρ : list (Slp.var * V)) x :
  Slp.get (map (prod_map id f) ρ) x = f <$> Slp.get ρ x.
Proof.
  induction ρ as [|[y a] ρ IH]; [reflexivity|].
  cbn [map prod_map fst snd id Slp.get].
  destruct (Slp.var_eqb x y); [reflexivity|exact IH].
Qed.

Lemma get_Forall {V : Type} (P : V -> Prop) (ρ : list (Slp.var * V)) x a :
  Forall (fun p => P p.2) ρ -> Slp.get ρ x = Some a -> P a.
Proof.
  induction 1 as [|[y a'] ρ Hy _ IH]; [discriminate|].
  cbn [Slp.get]. destruct (Slp.var_eqb x y); [|exact IH].
  intros [= <-]. exact Hy.
Qed.

Lemma scale_le d : (1 <= d <= 2)%nat -> 0 < b ^ Z.of_nat d <= b ^ 2.
Proof.
  intros Hd. split; [apply Z.pow_pos_nonneg; lia|].
  apply Z.pow_le_mono_r; lia.
Qed.

(** A result bounded by [c * b^d] with [c <= k] is in range once
    [k * b^2] is. *)
Lemma checked_within z c d k :
  0 <= c <= k -> (1 <= d <= 2)%nat -> Z.abs z <= c * b ^ Z.of_nat d ->
  k * b ^ 2 < 2 ^ 63 -> checked z = Some z.
Proof.
  intros Hc Hd Hz Hk. pose proof (scale_le d Hd) as Hs.
  assert (c * b ^ Z.of_nat d <= k * b ^ 2)
    by (apply Z.mul_le_mono_nonneg; lia).
  unfold checked, in_int64.
  destruct (Z.leb_spec (- 2 ^ 63) z), (Z.ltb_spec z (2 ^ 63));
    cbn [andb]; try reflexivity; lia.
Qed.

Lemma peak_le k k' : k' <= k -> k * b ^ 2 < 2 ^ 63 -> k' * b ^ 2 < 2 ^ 63.
Proof.
  intros Hk Hlt. pose proof (scale_le 2 ltac:(lia)) as Hs.
  assert (k' * b ^ 2 <= k * b ^ 2) by (apply Z.mul_le_mono_nonneg_r; lia).
  lia.
Qed.

Lemma abs_mul_le x y c1 c2 s1 s2 :
  0 <= c1 -> 0 <= c2 -> 0 < s1 -> 0 < s2 ->
  Z.abs x <= c1 * s1 -> Z.abs y <= c2 * s2 ->
  Z.abs (x * y) <= c1 * c2 * (s1 * s2).
Proof.
  intros. rewrite Z.abs_mul.
  replace (c1 * c2 * (s1 * s2)) with ((c1 * s1) * (c2 * s2)) by ring.
  apply Z.mul_le_mono_nonneg; lia.
Qed.

(** An expression whose operations all stay below the peak evaluates, with
    overflow checks, to the exact integer value. *)
Lemma eval_checked (g : genv) e :
  Forall (fun p => within p.2) g ->
  forall c d k,
    Slp.magnitude (bnds g) e = Some (c, d, k) -> k * b ^ 2 < 2 ^ 63 ->
    exists z n,
      Slp.eval (ops := Z_scalar) (vals g) e = Some (z, n)
      /\ Slp.eval (ops := checked_scalar) (chks g) e = Some (Some z, n)
      /\ within (z, (c, d)) /\ 0 <= k.
Proof.
  intros Hg. induction e as [x|e1 IH1|e1 IH1 e2 IH2|e1 IH1 e2 IH2|e1 IH1 e2 IH2];
    intros c d k Hm Hk; cbn [Slp.magnitude Slp.eval] in *.
  - rewrite !get_map in *.
    destruct (Slp.get g x) as [[z [c' d']]|] eqn:Hx; [|discriminate].
    cbn in Hm. injection Hm as <- <- <-. exists z, Slp.no_ops.
    pose proof (get_Forall within g x _ Hg Hx) as Hw.
    split; [reflexivity|]. split; [reflexivity|]. split; [exact Hw|lia].
  - destruct (Slp.magnitude (bnds g) e1) as [[[c1 d1] k1]|] eqn:H1;
      [|discriminate].
    cbn in Hm. injection Hm as <- <- <-.
    destruct (IH1 _ _ _ eq_refl) as (z & n & Hz & Hc & (Hc0 & Hd & Hb) & Hk0);
      [eapply peak_le; [|exact Hk]; lia|]. cbn [fst snd] in *.
    exists (- z), (Slp.tick_neg n). rewrite Hz, Hc.
    cbn [mbind option_bind s_neg Z_scalar checked_scalar].
    assert (Hnz : Z.abs (- z) <= c1 * b ^ Z.of_nat d1)
      by now rewrite Z.abs_opp.
    rewrite (checked_within (- z) c1 d1 (Z.max k1 c1)
               ltac:(lia) Hd Hnz Hk).
    split; [reflexivity|]. split; [reflexivity|].
    split; [split; [exact Hc0|split; [exact Hd|exact Hnz]]|lia].
  - destruct (Slp.magnitude (bnds g) e1) as [[[c1 d1] k1]|] eqn:H1;
      [|discriminate].
    destruct (Slp.magnitude (bnds g) e2) as [[[c2 d2] k2]|] eqn:H2;
      [|discriminate].
    cbn in Hm. destruct (decide (d1 = d2)) as [<-|]; [|discriminate].
    injection Hm as <- <- <-.
    destruct (IH1 _ _ _ eq_refl) as (x & n1 & Hx & Hcx & (Hc1 & Hd1 & Hb1) & ?);
      [eapply peak_le; [|exact Hk]; lia|].
    destruct (IH2 _ _ _ eq_refl) as (y & n2 & Hy & Hcy & (Hc2 & Hd2 & Hb2) & ?);
      [eapply peak_le; [|exact Hk]; lia|]. cbn [fst snd] in *.
    assert (Hxy : Z.abs (x + y) <= (c1 + c2) * b ^ Z.of_nat d1)
      by (pose proof (Z.abs_triangle x y); lia).
    exists (x + y), (Slp.tick_addsub (Slp.tally_plus n1 n2)).
    rewrite Hx, Hy, Hcx, Hcy.
    cbn [mbind option_bind s_add Z_scalar checked_scalar].
    rewrite (checked_within (x + y) (c1 + c2) d1
               (Z.max (Z.max k1 k2) (c1 + c2)) ltac:(lia) Hd1 Hxy Hk).
    split; [reflexivity|]. split; [reflexivity|].
    split; [split; [cbn; lia|split; [exact Hd1|exact Hxy]]|lia].
  - destruct (Slp.magnitude (bnds g) e1) as [[[c1 d1] k1]|] eqn:H1;
      [|discriminate].
    destruct (Slp.magnitude (bnds g) e2) as [[[c2 d2] k2]|] eqn:H2;
      [|discriminate].
    cbn in Hm. destruct (decide (d1 = d2)) as [<-|]; [|discriminate].
    injection Hm as <- <- <-.
    destruct (IH1 _ _ _ eq_refl) as (x & n1 & Hx & Hcx & (Hc1 & Hd1 & Hb1) & ?);
      [eapply peak_le; [|exact Hk]; lia|].
    destruct (IH2 _ _ _ eq_refl) as (y & n2 & Hy & Hcy & (Hc2 & Hd2 & Hb2) & ?);
      [eapply peak_le; [|exact Hk]; lia|]. cbn [fst snd] in *.
    assert (Hxy : Z.abs (x - y) <= (c1 + c2) * b ^ Z.of_nat d1)
      by (pose proof (Z.abs_triangle x (- y)); rewrite Z.abs_opp in *;
          replace (x - y) with (x + - y) by ring; lia).
    exists (x - y), (Slp.tick_addsub (Slp.tally_plus n1 n2)).
    rewrite Hx, Hy, Hcx, Hcy.
    cbn [mbind option_bind s_sub Z_scalar checked_scalar].
    rewrite (checked_within (x - y) (c1 + c2) d1
               (Z.max (Z.max k1 k2) (c1 + c2)) ltac:(lia) Hd1 Hxy Hk).
    split; [reflexivity|]. split; [reflexivity|].
    split; [split; [cbn; lia|split; [exact Hd1|exact Hxy]]|lia].
  - destruct (Slp.magnitude (bnds g) e1) as [[[c1 d1] k1]|] eqn:H1;
      [|discriminate].
    destruct (Slp.magnitude (bnds g) e2) as [[[c2 d2] k2]|] eqn:H2;
      [|discriminate].
    cbn in Hm. destruct (decide (d1 + d2 <= 2)%nat) as [Hdd|]; [|discriminate].
    injection Hm as <- <- <-.
    destruct (IH1 _ _ _ eq_refl) as (x & n1 & Hx & Hcx & (Hc1 & Hd1 & Hb1) & ?);
      [eapply peak_le; [|exact Hk]; lia|].
    destruct (IH2 _ _ _ eq_refl) as (y & n2 & Hy & Hcy & (Hc2 & Hd2 & Hb2) & ?);
      [eapply peak_le; [|exact Hk]; lia|]. cbn [fst snd] in *.
    assert (Hxy : Z.abs (x * y) <= c1 * c2 * b ^ Z.of_nat (d1 + d2)).
    { rewrite Nat2Z.inj_add, Z.pow_add_r by lia.
      apply abs_mul_le; try lia; apply scale_le; lia. }
    exists (x * y), (Slp.tick_mul (Slp.tally_plus n1 n2)).
    rewrite Hx, Hy, Hcx, Hcy.
    cbn [mbind option_bind s_mul Z_scalar checked_scalar].
    assert (H1' : 0 <= c1 * c2) by (apply Z.mul_nonneg_nonneg; lia).
    rewrite (checked_within (x * y) (c1 * c2) (d1 + d2)
               (Z.max (Z.max k1 k2) (c1 * c2)) ltac:(lia) ltac:(lia) Hxy Hk).
    split; [reflexivity|]. split; [reflexivity|].
    split; [split; [exact H1'|split; [cbn; lia|exact Hxy]]|lia].
Qed.
Lemma magnitudes_mono p : forall β K0 β' K,
  Slp.magnitudes p β K0 = Some (β', K) -> K0 <= K.
Proof.
  induction p as [|[x e] p IH]; intros β K0 β' K Hm; cbn [Slp.magnitudes] in Hm.
  - injection Hm as _ <-. lia.
  - destruct (Slp.magnitude β (x, e).2) as [[[c d] k]|]; [|discriminate].
    cbn in Hm. apply IH in Hm. lia.
Qed.

(** A program whose operations all stay below the peak runs, with overflow
    checks, exactly as over the integers. *)
Lemma exec_checked p : forall (g : genv) K0 β' K n0,
  Forall (fun q => within q.2) g ->
  Slp.magnitudes p (bnds g) K0 = Some (β', K) -> K * b ^ 2 < 2 ^ 63 ->
  exists (g' : genv) n,
    Slp.exec (ops := Z_scalar) p (vals g, n0) = Some (vals g', n)
    /\ Slp.exec (ops := checked_scalar) p (chks g, n0) = Some (chks g', n).
Proof.
  induction p as [|[x e] p IH]; intros g K0 β' K n0 Hg Hm HK.
  - exists g, n0. split; reflexivity.
  - cbn [Slp.magnitudes snd fst] in Hm.
    destruct (Slp.magnitude (bnds g) e) as [[[c d] k]|] eqn:He;
      [|discriminate].
    cbn [mbind option_bind] in Hm.
    pose proof (magnitudes_mono _ _ _ _ _ Hm) as Hmono.
    destruct (eval_checked g e Hg c d k He) as (z & n & Hz & Hc & Hw & _);
      [eapply peak_le; [|exact HK]; lia|].
    destruct (IH ((x, (z, (c, d))) :: g) (Z.max K0 k) β' K
                 (Slp.tally_plus n0 n)) as (g' & n' & HZ & HC);
      [constructor; [exact Hw|exact Hg]|exact Hm|exact HK|].
    exists g', n'. cbn [Slp.exec]. unfold Slp.step. cbn [fst snd].
    rewrite Hz, Hc. cbn [mbind option_bind fst snd].
    split; [exact HZ|exact HC].
Qed.

Lemma result_map {V W : Type} (f : V -> W) (ρ : list (Slp.var * V)) :
  Slp.result (map (prod_map id f) ρ) = map f <$> Slp.result ρ.
Proof.
  unfold Slp.result. induction (seq 0 9) as [|i l IH]; [reflexivity|].
  cbn [mapM]. rewrite get_map, IH.
  destruct (Slp.get ρ (Slp.C i)); [|reflexivity].
  now destruct (mapM (fun i => Slp.get ρ (Slp.C i)) l).
Qed.

(** With entries of absolute value at most [b] and [51 * b^2] in range, the
    body run with overflow checks never gives up and computes the exact
    integers. *)
Lemma kernel_checked (A0 A1 A2 A3 A4 A5 A6 A7 A8
                      B0 B1 B2 B3 B4 B5 B6 B7 B8 : Z) :
  51 * b ^ 2 < 2 ^ 63 ->
  Forall (fun x => Z.abs x <= b) [A0; A1; A2; A3; A4; A5; A6; A7; A8] ->
  Forall (fun x => Z.abs x <= b) [B0; B1; B2; B3; B4; B5; B6; B7; B8] ->
  kernel (ops := checked_scalar)
    (Some A0) (Some A1) (Some A2) (Some A3) (Some A4) (Some A5)
    (Some A6) (Some A7) (Some A8)
    (Some B0) (Some B1) (Some B2) (Some B3) (Some B4) (Some B5)
    (Some B6) (Some B7) (Some B8)
  = map Some (kernel (ops := Z_scalar)
                A0 A1 A2 A3 A4 A5 A6 A7 A8 B0 B1 B2 B3 B4 B5 B6 B7 B8).
Proof.
  intros HK HA HB.
  set (g0 := [(Slp.A 0, (A0, (1, 1%nat))); (Slp.A 1, (A1, (1, 1%nat)));
              (Slp.A 2, (A2, (1, 1%nat))); (Slp.A 3, (A3, (1, 1%nat)));
              (Slp.A 4, (A4, (1, 1%nat))); (Slp.A 5, (A5, (1, 1%nat)));
              (Slp.A 6, (A6, (1, 1%nat))); (Slp.A 7, (A7, (1, 1%nat)));
              (Slp.A 8, (A8, (1, 1%nat)));
              (Slp.B 0, (B0, (1, 1%nat))); (Slp.B 1, (B1, (1, 1%nat)));
              (Slp.B 2, (B2, (1, 1%nat))); (Slp.B 3, (B3, (1, 1%nat)));
              (Slp.B 4, (B4, (1, 1%nat))); (Slp.B 5, (B5, (1, 1%nat)));
              (Slp.B 6, (B6, (1, 1%nat))); (Slp.B 7, (B7, (1, 1%nat)));
              (Slp.B 8, (B8, (1, 1%nat)))] : genv).
  assert (Hg0 : Forall (fun q => within q.2) g0).
  { assert (Hin : forall x, Z.abs x <= b -> within (x, (1, 1%nat))).
    { intros x Hx. unfold Slp.within. cbn [fst snd].
      change (Z.of_nat 1) with 1. rewrite Z.pow_1_r. lia. }
    repeat match goal with
           | H : Forall _ (_ :: _) |- _ => apply Forall_cons in H as [? H]
           end.
    repeat (constructor; [apply Hin; assumption|]). constructor. }
  assert (Hm : exists β, Slp.magnitudes Slp.body (bnds g0) 0 = Some (β, 51))
    by (eexists; vm_compute; reflexivity).
  destruct Hm as [β Hm].
  destruct (exec_checked Slp.body g0 0 β 51 Slp.no_ops Hg0 Hm HK)
    as (g' & n & HZ & HC).
  destruct (exec_body_kernel (ops := Z_scalar)
              A0 A1 A2 A3 A4 A5 A6 A7 A8 B0 B1 B2 B3 B4 B5 B6 B7 B8)
    as (ρz & Hez & Hrz).
  destruct (exec_body_kernel (ops := checked_scalar)
              (Some A0) (Some A1) (Some A2) (Some A3) (Some A4) (Some A5)
              (Some A6) (Some A7) (Some A8)
              (Some B0) (Some B1) (Some B2) (Some B3) (Some B4) (Some B5)
              (Some B6) (Some B7) (Some B8))
    as (ρc & Hec & Hrc).
  assert (Ez : Some (vals g', n) = Some (ρz, Slp.body_tally))
    by (rewrite <- HZ; exact Hez).
  assert (Ec : Some (chks g', n) = Some (ρc, Slp.body_tally))
    by (rewrite <- HC; exact Hec).
  injection Ez as <- _. injection Ec as <- _.
  rewrite result_map in Hrz. rewrite result_map in Hrc.
  destruct (Slp.result g') as [l|]; [|discriminate Hrz].
  cbn [fmap option_fmap option_map] in Hrz, Hrc.
  injection Hrz as Hz1. injection Hrc as Hc1.
  rewrite <- Hz1, <- Hc1, map_map. reflexivity.
Qed.
End Magnitudes.

(** X6.  When every entry of [A] and [B] is at most [bound] in absolute
    value and [51 * bound^2] is below [2^63], none of the additions,
    subtractions, negations and multiplications of a call leaves the int64
    range, and the call returns the exact integer product. *)
Theorem no_int64_overflow_for_bounded_entries
    (bound : Z) (h : gmap loc (list Z)) (A B : ndarray) (a b : list Z) :
  (1 <= bound)%Z -> (51 * bound ^ 2 < 2 ^ 63)%Z ->
  ravel h A = Some a -> ravel h B = Some b ->
  length a = 9 -> length b = 9 ->
  Forall (fun x => Z.abs x <= bound)%Z a ->
  Forall (fun x => Z.abs x <= bound)%Z b ->
  observe (fast_3x3_rank23 (ops := checked_scalar) (map Some <$> h) A B)
  = Some (inl ([3; 3], map Some (matmul (ops := Z_scalar) 3 0%Z a b))).
Proof.
  intros Hb1 Hb2 Ha Hb Hla Hlb HFa HFb.
  assert (Ha' : ravel (map Some <$> h) A = Some (map Some a))
    by now rewrite (ravel_fmap Some h A), Ha.
  assert (Hb' : ravel (map Some <$> h) B = Some (map Some b))
    by now rewrite (ravel_fmap Some h B), Hb.
  by_length a. by_length b. cbn [map] in Ha', Hb'.
  rewrite (observe_returns _ _ _ _ _ _ _ _ _ _ _ _ _ _ _ _ _ _ _ _ _ Ha' Hb').
  change (s_array (Scalar := checked_scalar))
    with (fun xs : list (option Z) => xs).
  cbv beta.
  rewrite (kernel_checked bound Hb1 _ _ _ _ _ _ _ _ _ _ _ _ _ _ _ _ _ _
                          Hb2 HFa HFb).
  do 4 f_equal. exact (kernel_matmul 0%Z 1%Z Z.add Z.mul Z.sub Z.opp py_int_array Zth
                         _ _ _ _ _ _ _ _ _ _ _ _ _ _ _ _ _ _).
Qed.

(** [no_int64_overflow_for_bounded_entries] for entries up to 400 million. *)
Lemma no_int64_overflow_for_bounded_entries_witness :
  let a := [400000000; -400000000; 3; 4; 5; 6; 7; 8; 400000000]%Z in
  let b := [-400000000; 8; 7; 6; 400000000; 4; 3; 2; -400000000]%Z in
  (51 * 400000000 ^ 2 < 2 ^ 63)%Z
  /\ observe (fast_3x3_rank23 (ops := checked_scalar)
                (map Some <$> store2 a b) (view 0 [3; 3]) (view 1 [3; 3]))
     = Some (inl ([3; 3], map Some (matmul (ops := Z_scalar) 3 0%Z a b))).
Proof.
  cbv zeta. split; [lia|].
  apply (no_int64_overflow_for_bounded_entries 400000000
           (store2 [400000000; -400000000; 3; 4; 5; 6; 7; 8; 400000000]%Z
                   [-400000000; 8; 7; 6; 400000000; 4; 3; 2; -400000000]%Z)
           (view 0 [3; 3]) (view 1 [3; 3]));
    first [reflexivity | lia | repeat constructor; lia].
Defined.
